(** * Monte Carlo localization (particle_filter.py): model and properties

    A shallow embedding of the estimation core of [particle_filter.py]:
    [generate_particles], [mean_pose], [sample_motion], [weight_update] and
    [resample_particles].

    Numbers.  The program computes on IEEE doubles; here every float is a
    real number ([R]); NaN, infinities and signed zeros are outside the
    model.  Outside [resample_particles] the arithmetic is exact.  In
    [resample_particles] rounding decides whether the scan of the weights
    ends inside the weight vector, so there every arithmetic result goes
    through a rounding function [fl : R -> R], a parameter of the model:
    the rounding to the nearest double is one such function, the identity
    ([no_rounding]) is the exact arithmetic.  Numeric sequences are lists
    of reals; where Python tells a list of plain floats from numpy values,
    the model carries the difference ([weight_kind]).

    Effects.  The program draws from numpy's global generator and raises
    Python exceptions.  The generator is an explicit state threaded through
    the functions that draw ([Rand]); an exception is a [Raise] result. *)

From Stdlib Require Import Reals Lra Lia List.
From stdpp Require Import base option list gmap.
Import ListNotations.

Open Scope R_scope.

(** ** Exceptions and results *)

Inductive exn : Set :=
| ZeroDivisionError
| IndexError
| KeyError
| ValueError
| TypeError.

Inductive result (A : Type) : Type :=
| Ok (a : A)
| Raise (e : exn).

Arguments Ok {A} a.
Arguments Raise {A} e.

Definition rbind {A B} (m : result A) (k : A -> result B) : result B :=
  match m with
  | Ok a => k a
  | Raise e => Raise e
  end.

Notation "'let?' x ':=' m 'in' k" := (rbind m (fun x => k))
  (at level 10, x name, m at level 100, k at level 200, only parsing).

(** [seq[i]] on a Python list or numpy array, [i >= 0]. *)
Definition index {A} (l : list A) (i : nat) : result A :=
  match l !! i with
  | Some a => Ok a
  | None => Raise IndexError
  end.

(** [mapping[k]] on a dict. *)
Definition getitem {V} (m : gmap Z V) (k : Z) : result V :=
  match m !! k with
  | Some v => Ok v
  | None => Raise KeyError
  end.

(** ** The random generator

    [np.random] is a deterministic generator behind a global state.  The
    state is modelled by what it will answer: the outcome of its [k]-th call
    when that call asks for a sample of [0, 1) ([uniform_draws]) or for a
    standard normal sample ([normal_draws]), and the number of calls so
    far. *)

Record RandomState : Type := mkRandomState {
  uniform_draws : nat -> R;
  normal_draws : nat -> R;
  position : nat
}.

Definition advance (s : RandomState) : RandomState :=
  mkRandomState (uniform_draws s) (normal_draws s) (S (position s)).

(** The generator's contract: [random_sample] answers in [0, 1). *)
Definition rng_ok (s : RandomState) : Prop :=
  forall k, 0 <= uniform_draws s k < 1.

Definition Rand (A : Type) : Type := RandomState -> result (A * RandomState).

Definition ret {A} (a : A) : Rand A := fun s => Ok (a, s).

Definition bind {A B} (m : Rand A) (k : A -> Rand B) : Rand B :=
  fun s => match m s with
           | Ok (a, s') => k a s'
           | Raise e => Raise e
           end.

Definition lift {A} (m : result A) : Rand A :=
  fun s => match m with
           | Ok a => Ok (a, s)
           | Raise e => Raise e
           end.

Notation "'let*' x ':=' m 'in' k" := (bind m (fun x => k))
  (at level 10, x name, m at level 100, k at level 200, only parsing).

Definition random_sample : Rand R :=
  fun s => Ok (uniform_draws s (position s), advance s).

Definition standard_normal : Rand R :=
  fun s => Ok (normal_draws s (position s), advance s).

(** [np.random.uniform(low, high)]: [low + (high - low) * random_sample()]. *)
Definition uniform (low high : R) : Rand R :=
  let* r := random_sample in ret (low + (high - low) * r).

(** [np.random.normal(loc, scale)]: numpy rejects a negative [scale] with
    [ValueError("scale < 0")] before drawing; otherwise the sample is
    [loc + scale * standard_normal()]. *)
Definition normal (loc scale : R) : Rand R :=
  if Rlt_dec scale 0 then lift (Raise ValueError)
  else let* g := standard_normal in ret (loc + scale * g).

(** ** Data *)

(** A particle is a dict with exactly the keys ['x'], ['y'], ['theta']. *)
Module Particle.
Record t : Type := mk { x : R; y : R; theta : R }.
End Particle.
Abbreviation particle := Particle.t.

(** An odometry reading is a dict with the keys ['r1'], ['t'], ['r2']. *)
Module Odometry.
Record delta : Type := mk { r1 : R; t : R; r2 : R }.
End Odometry.

(** A sensor reading is a dict of three parallel lists. *)
Module Sensor.
Record t : Type := mk { id : list Z; range : list R; bearing : list R }.
End Sensor.

(** ** generate_particles *)

Definition generate_particle (map_limits : list R) : Rand particle :=
  let* lo_x := lift (index map_limits 0) in
  let* hi_x := lift (index map_limits 1) in
  let* px := uniform lo_x hi_x in
  let* lo_y := lift (index map_limits 2) in
  let* hi_y := lift (index map_limits 3) in
  let* py := uniform lo_y hi_y in
  let* ptheta := uniform (- PI) PI in
  ret (Particle.mk px py ptheta).

(** [for i in range(num_particles): ...; particles.append(particle)] *)
Fixpoint generate_particles (num_particles : nat) (map_limits : list R)
  : Rand (list particle) :=
  match num_particles with
  | O => ret []
  | S n =>
      let* p := generate_particle map_limits in
      let* ps := generate_particles n map_limits in
      ret (p :: ps)
  end.

(** ** mean_pose *)

(** Python's [sum(l)]: start at 0, add from the left. *)
Definition sum (l : list R) : R := fold_left Rplus l 0.

(** [np.mean(l)] *)
Definition mean (l : list R) : R := sum l / INR (length l).

(** [np.arctan2(y, x)], the angle of the vector [(x, y)] in (-pi, pi];
    [arctan2(0, 0)] is 0. *)
Definition arctan2 (y x : R) : R :=
  if Rlt_dec 0 x then atan (y / x)
  else if Rlt_dec x 0 then
    if Rle_dec 0 y then atan (y / x) + PI else atan (y / x) - PI
  else if Rlt_dec 0 y then PI / 2
  else if Rlt_dec y 0 then - (PI / 2)
  else 0.

(** The four lists the loop of [mean_pose] fills. *)
Record pose_lists : Type := mkPoseLists {
  xs : list R;
  ys : list R;
  vxs_theta : list R;
  vys_theta : list R
}.

Definition pose_append (acc : pose_lists) (p : particle) : pose_lists :=
  mkPoseLists
    (xs acc ++ [Particle.x p])
    (ys acc ++ [Particle.y p])
    (vxs_theta acc ++ [cos (Particle.theta p)])
    (vys_theta acc ++ [sin (Particle.theta p)]).

Definition mean_pose (particles : list particle) : list R :=
  let acc := fold_left pose_append particles (mkPoseLists [] [] [] []) in
  let mean_x := mean (xs acc) in
  let mean_y := mean (ys acc) in
  let mean_theta := arctan2 (mean (vys_theta acc)) (mean (vxs_theta acc)) in
  [mean_x; mean_y; mean_theta].

(** ** sample_motion *)

(** [for x in l: ...; out.append(f(x))] with a body that draws. *)
Fixpoint for_each {A B} (f : A -> Rand B) (l : list A) : Rand (list B) :=
  match l with
  | [] => ret []
  | a :: l' =>
      let* b := f a in
      let* bs := for_each f l' in
      ret (b :: bs)
  end.

Definition noise : list R := [0.1; 0.1; 0.05; 0.05].

Record motion_sigmas : Type := mkSigmas {
  sigma_delta_rot1 : R;
  sigma_delta_trans : R;
  sigma_delta_rot2 : R
}.

Definition motion_noise (odometry : Odometry.delta) : result motion_sigmas :=
  let delta_rot1 := Odometry.r1 odometry in
  let delta_trans := Odometry.t odometry in
  let delta_rot2 := Odometry.r2 odometry in
  let? a1 := index noise 0 in
  let? a2 := index noise 1 in
  let? a3 := index noise 2 in
  let? a4 := index noise 3 in
  Ok (mkSigmas
        (a1 * Rabs delta_rot1 + a2 * delta_trans)
        (a3 * delta_trans + a4 * (Rabs delta_rot1 + Rabs delta_rot2))
        (a1 * Rabs delta_rot2 + a2 * delta_trans)).

(** The body of the loop of [sample_motion] for one particle. *)
Definition move_particle (odometry : Odometry.delta) (sg : motion_sigmas)
    (p : particle) : Rand particle :=
  let delta_rot1 := Odometry.r1 odometry in
  let delta_trans := Odometry.t odometry in
  let delta_rot2 := Odometry.r2 odometry in
  let* n1 := normal 0 (sigma_delta_rot1 sg) in
  let noisy_delta_rot1 := delta_rot1 + n1 in
  let* n2 := normal 0 (sigma_delta_trans sg) in
  let noisy_delta_trans := delta_trans + n2 in
  let* n3 := normal 0 (sigma_delta_rot2 sg) in
  let noisy_delta_rot2 := delta_rot2 + n3 in
  ret (Particle.mk
         (Particle.x p
          + noisy_delta_trans * cos (Particle.theta p + noisy_delta_rot1))
         (Particle.y p
          + noisy_delta_trans * sin (Particle.theta p + noisy_delta_rot1))
         (Particle.theta p + noisy_delta_rot1 + noisy_delta_rot2)).

Definition sample_motion (odometry : Odometry.delta)
    (particles : list particle) : Rand (list particle) :=
  let* sg := lift (motion_noise odometry) in
  for_each (move_particle odometry sg) particles.

(** ** weight_update *)

Definition sigma_r : R := 0.2.

(** [scipy.stats.norm.pdf(x, loc, scale)] for a positive [scale]: the
    standard normal density at [(x - loc) / scale], divided by [scale]. *)
Definition norm_pdf (x loc scale : R) : R :=
  exp (- ((x - loc) / scale) ^ 2 / 2) / sqrt (2 * PI) / scale.

(** The body of the inner loop: the likelihood of observation [i] seen from
    [p].  The bearing is read and not used. *)
Definition meas_likelihood (sensor_data : Sensor.t)
    (landmarks : gmap Z (R * R)) (p : particle) (i : nat) : result R :=
  let? lm_id := index (Sensor.id sensor_data) i in
  let? meas_range := index (Sensor.range sensor_data) i in
  let? bearing := index (Sensor.bearing sensor_data) i in
  let? lm := getitem landmarks lm_id in
  let lx := fst lm in
  let ly := snd lm in
  let px := Particle.x p in
  let py := Particle.y p in
  let meas_range_exp := sqrt ((lx - px) ^ 2 + (ly - py) ^ 2) in
  Ok (norm_pdf meas_range meas_range_exp sigma_r).

(** [for i in idxs: acc = acc * body(i)] *)
Fixpoint product_loop (body : nat -> result R) (idxs : list nat) (acc : R)
  : result R :=
  match idxs with
  | [] => Ok acc
  | i :: idxs' =>
      let? l := body i in
      product_loop body idxs' (acc * l)
  end.

Definition particle_weight (sensor_data : Sensor.t)
    (landmarks : gmap Z (R * R)) (p : particle) : result R :=
  product_loop (meas_likelihood sensor_data landmarks p)
    (seq 0 (length (Sensor.id sensor_data))) 1.

(** [for x in l: ...; out.append(f(x))] with a body that may raise. *)
Fixpoint collect {A B} (f : A -> result B) (l : list A) : result (list B) :=
  match l with
  | [] => Ok []
  | a :: l' =>
      let? b := f a in
      let? bs := collect f l' in
      Ok (b :: bs)
  end.

Definition weight_update (sensor_data : Sensor.t) (particles : list particle)
    (landmarks : gmap Z (R * R)) : result (list R) :=
  collect (particle_weight sensor_data landmarks) particles.

(** ** resample_particles *)

(** What the sequence of weights is made of.  [weight_update] returns a
    Python list; its entries are plain floats when there is no observation
    (each weight is the initial [1.0]) and numpy scalars otherwise (each is
    a product with [scipy.stats.norm.pdf] values).  [sum] of plain floats is
    a plain float, and [weights / normalizer] on a list and a plain float
    raises [TypeError]; with a numpy scalar in the list the sum is a numpy
    scalar and the division is numpy's elementwise one, as it is on a numpy
    array. *)
Inductive weight_kind : Set :=
| PlainFloats
| NumpyValues.

(** Python's [sum(l)] on doubles: start at 0, add from the left, round each
    addition. *)
Definition fsum (fl : R -> R) (l : list R) : R :=
  fold_left (fun acc w => fl (acc + w)) l 0.

(** [a / n] for a float [a] and an [int] [n]. *)
Definition float_div (fl : R -> R) (a : R) (n : nat) : result R :=
  match n with
  | O => Raise ZeroDivisionError
  | S _ => Ok (fl (a / INR n))
  end.

(** [np.random.uniform(low, high)] on doubles. *)
Definition uniform_double (fl : R -> R) (low high : R) : Rand R :=
  let* r := random_sample in
  ret (fl (low + fl (fl (high - low) * r))).

(** The pointer of the cumulative-weight scan: the running sum [ptr_c], the
    index [ptr_i], and the weights after that index, [weights[ptr_i+1:]],
    so that [weights[ptr_i + 1]] is the head of [ptr_rest] and raises
    [IndexError] when [ptr_rest] is empty. *)
Record pointer : Type := mkPointer {
  ptr_c : R;
  ptr_i : nat;
  ptr_rest : list R
}.

(** [while u > c: i = i + 1; c = c + weights[i]] *)
Fixpoint advance_pointer (fl : R -> R) (rest : list R) (u c : R) (i : nat)
  : result pointer :=
  if Rgt_dec u c then
    match rest with
    | [] => Raise IndexError
    | w :: rest' => advance_pointer fl rest' u (fl (c + w)) (S i)
    end
  else Ok (mkPointer c i rest).

(** [for particle in particles:] the scan, [new_particles.append(particles[i])]
    and [u = u + step]; [todo] is what the [for] has still to visit. *)
Fixpoint resample_loop (fl : R -> R) (particles todo : list particle)
    (step u : R) (ptr : pointer) : result (list particle) :=
  match todo with
  | [] => Ok []
  | _ :: todo' =>
      let? ptr' :=
        advance_pointer fl (ptr_rest ptr) u (ptr_c ptr) (ptr_i ptr) in
      let? p := index particles (ptr_i ptr') in
      let? out := resample_loop fl particles todo' step (fl (u + step)) ptr' in
      Ok (p :: out)
  end.

Definition default_limits : list R := [-1; 12; 0; 10].

Definition resample_particles (fl : R -> R) (particles : list particle)
    (kind : weight_kind) (weights : list R) : Rand (list particle) :=
  let normalizer := fsum fl weights in
  if Rlt_dec normalizer 0.01 then
    generate_particles (length weights) default_limits
  else
    match kind with
    | PlainFloats => lift (Raise TypeError)
    | NumpyValues =>
        let weights := map (fun w => fl (w / normalizer)) weights in
        let* step := lift (float_div fl 1 (length particles)) in
        let* u := uniform_double fl 0 step in
        let* c := lift (index weights 0) in
        lift (resample_loop fl particles particles step u
                (mkPointer c 0 (tail weights)))
    end.

(** ** plot

    The drawing calls of [plot] (matplotlib) are outside the model.  What is
    modelled is the data [plot] gathers before its first drawing call, and
    the exception it may raise on the way. *)

Record plot_data : Type := mkPlotData {
  plot_xs : list R;
  plot_ys : list R;
  plot_lx : list R;
  plot_ly : list R;
  estimated_pose : list R
}.

(** [for particle in particles: xs.append(particle['x']);
    ys.append(particle['y'])] *)
Definition particle_series (particles : list particle) : list R * list R :=
  fold_left
    (fun acc p => (fst acc ++ [Particle.x p], snd acc ++ [Particle.y p]))
    particles ([], []).

(** [for i in idxs: lx.append(landmarks[i+1][0]);
    ly.append(landmarks[i+1][1])] *)
Fixpoint landmark_series (landmarks : gmap Z (R * R)) (idxs : list nat)
    (lx ly : list R) : result (list R * list R) :=
  match idxs with
  | [] => Ok (lx, ly)
  | i :: idxs' =>
      let? lm := getitem landmarks (Z.of_nat i + 1) in
      let lx := lx ++ [fst lm] in
      let? lm := getitem landmarks (Z.of_nat i + 1) in
      let ly := ly ++ [snd lm] in
      landmark_series landmarks idxs' lx ly
  end.

Definition plot (particles : list particle) (landmarks : gmap Z (R * R))
  : result plot_data :=
  let series := particle_series particles in
  let? lms := landmark_series landmarks (seq 0 (size landmarks)) [] [] in
  let estimated_pose := mean_pose particles in
  Ok (mkPlotData (fst series) (snd series) (fst lms) (snd lms)
        estimated_pose).

(** ** main: the filter loop *)

(** What the weights [weight_update] returns are made of. *)
Definition weights_kind (sensor_data : Sensor.t) : weight_kind :=
  match Sensor.id sensor_data with
  | [] => PlainFloats
  | _ :: _ => NumpyValues
  end.

(** The three calls of one pass of the loop of [main]: predict with the
    odometry of the reading, weigh with its observations, resample. *)
Definition filter_step (fl : R -> R) (odometry : Odometry.delta)
    (sensor_data : Sensor.t) (landmarks : gmap Z (R * R))
    (particles : list particle) : Rand (list particle) :=
  let* new_particles := sample_motion odometry particles in
  let* weights := lift (weight_update sensor_data new_particles landmarks) in
  resample_particles fl new_particles (weights_kind sensor_data) weights.

(** The loop of [main] over the readings, in order: each pass plots the
    current particles, then predicts, weighs and resamples; the next pass
    works on the particles this one returned. *)
Fixpoint filter_steps (fl : R -> R)
    (readings : list (Odometry.delta * Sensor.t))
    (landmarks : gmap Z (R * R)) (particles : list particle)
  : Rand (list particle) :=
  match readings with
  | [] => ret particles
  | (odometry, sensor_data) :: readings' =>
      let* drawn := lift (plot particles landmarks) in
      let* particles :=
        filter_step fl odometry sensor_data landmarks particles in
      filter_steps fl readings' landmarks particles
  end.

(** * Specification vocabulary *)

(** The exact arithmetic. *)
Definition no_rounding : R -> R := fun x => x.

(** What the proofs about the scan ask of a rounding: it keeps the order,
    it leaves a rounded number as it is, and it leaves 0 and 1 as they are.
    The rounding to the nearest double has these properties, and so has
    [no_rounding]. *)
Definition rounding_ok (fl : R -> R) : Prop :=
  (forall x y, x <= y -> fl x <= fl y)
  /\ (forall x, fl (fl x) = fl x)
  /\ fl 0 = 0
  /\ fl 1 = 1.

(** The weights after [weights / normalizer]. *)
Definition normalized (fl : R -> R) (weights : list R) : list R :=
  map (fun w => fl (w / fsum fl weights)) weights.

(** The stride [1.0 / len(particles)] and the offset
    [np.random.uniform(0, step)]. *)
Definition stride (fl : R -> R) (particles : list particle) : R :=
  fl (1 / INR (length particles)).

Definition offset (fl : R -> R) (particles : list particle)
    (s : RandomState) : R :=
  fl (0 + fl (fl (stride fl particles - 0) * uniform_draws s (position s))).

(** The threshold [u] at output position [k]: [u] has gone [k] times through
    [u = u + step]. *)
Fixpoint threshold (fl : R -> R) (step u : R) (k : nat) : R :=
  match k with
  | O => u
  | S k' => threshold fl step (fl (u + step)) k'
  end.

(** The running sum [c] when the pointer is on index [i]: [ws[0]], to which
    [ws[1]], ..., [ws[i]] have been added one by one. *)
Definition cumulative (fl : R -> R) (ws : list R) (i : nat) : R :=
  match ws with
  | [] => 0
  | w :: rest => fold_left (fun c w' => fl (c + w')) (take i rest) w
  end.

(** Index [i] is the one systematic resampling selects for threshold [u]: the
    smallest index whose cumulative weight reaches [u]. *)
Definition selected (fl : R -> R) (ws : list R) (u : R) (i : nat) : Prop :=
  (i < length ws)%nat
  /\ u <= cumulative fl ws i
  /\ forall j, (j < i)%nat -> cumulative fl ws j < u.

(** What the scan keeps true of its pointer while it walks over [ws] towards
    the threshold [u]. *)
Definition scan_inv (fl : R -> R) (ws : list R) (u : R) (ptr : pointer)
  : Prop :=
  (ptr_i ptr < length ws)%nat
  /\ ptr_rest ptr = drop (S (ptr_i ptr)) ws
  /\ ptr_c ptr = cumulative fl ws (ptr_i ptr)
  /\ forall j, (j < ptr_i ptr)%nat -> cumulative fl ws j < u.

(** Threshold [k] of the grid is reached inside both sequences: some index
    smaller than both lengths has a cumulative weight that reaches it. *)
Definition reached (fl : R -> R) (particles : list particle)
    (weights : list R) (s : RandomState) (k : nat) : Prop :=
  exists i, (i < length weights)%nat /\ (i < length particles)%nat
    /\ threshold fl (stride fl particles) (offset fl particles s) k
       <= cumulative fl (normalized fl weights) i.

(** The arithmetic mean as the specification writes it: the sum of the
    entries over their number. *)
Definition arithmetic_mean (l : list R) : R :=
  fold_right Rplus 0 l / INR (length l).

(** The state after [n] further calls. *)
Definition skip (n : nat) (s : RandomState) : RandomState :=
  mkRandomState (uniform_draws s) (normal_draws s) (n + position s).

(** The [k]-th uniform sample of [0, 1) counted from state [s]. *)
Definition unit_draw (s : RandomState) (k : nat) : R :=
  uniform_draws s (k + position s).

(** The [k]-th standard normal sample counted from state [s]. *)
Definition gauss_draw (s : RandomState) (k : nat) : R :=
  normal_draws s (k + position s).

(** The particle [generate_particles] builds from three samples of [0, 1). *)
Definition uniform_particle (map_limits : list R) (a b c : R) : particle :=
  Particle.mk
    (nth 0 map_limits 0 + (nth 1 map_limits 0 - nth 0 map_limits 0) * a)
    (nth 2 map_limits 0 + (nth 3 map_limits 0 - nth 2 map_limits 0) * b)
    (- PI + (PI - - PI) * c).

(** A particle inside the default map: [x] in [-1, 12), [y] in [0, 10),
    heading in [-pi, pi). *)
Definition in_default_bounds (p : particle) : Prop :=
  -1 <= Particle.x p < 12
  /\ 0 <= Particle.y p < 10
  /\ - PI <= Particle.theta p < PI.

(** The three noise deviations of an odometry reading. *)
Definition sigmas_of (odometry : Odometry.delta) : motion_sigmas :=
  mkSigmas
    (0.1 * Rabs (Odometry.r1 odometry) + 0.1 * Odometry.t odometry)
    (0.05 * Odometry.t odometry
     + 0.05 * (Rabs (Odometry.r1 odometry) + Rabs (Odometry.r2 odometry)))
    (0.1 * Rabs (Odometry.r2 odometry) + 0.1 * Odometry.t odometry).

Definition nonneg_sigmas (sg : motion_sigmas) : Prop :=
  0 <= sigma_delta_rot1 sg
  /\ 0 <= sigma_delta_trans sg
  /\ 0 <= sigma_delta_rot2 sg.

(** The motion update as the specification writes it, from the three
    standard normal samples [g1], [g2], [g3] behind the noise terms. *)
Definition moved (odometry : Odometry.delta) (g1 g2 g3 : R) (p : particle)
  : particle :=
  let sg := sigmas_of odometry in
  let noisy_rot1 := Odometry.r1 odometry + sigma_delta_rot1 sg * g1 in
  let noisy_trans := Odometry.t odometry + sigma_delta_trans sg * g2 in
  let noisy_rot2 := Odometry.r2 odometry + sigma_delta_rot2 sg * g3 in
  Particle.mk
    (Particle.x p + noisy_trans * cos (Particle.theta p + noisy_rot1))
    (Particle.y p + noisy_trans * sin (Particle.theta p + noisy_rot1))
    (Particle.theta p + noisy_rot1 + noisy_rot2).

(** A list of indices that never steps back. *)
Definition nondecreasing (idxs : list nat) : Prop :=
  forall j k i i', (j <= k)%nat ->
    idxs !! j = Some i -> idxs !! k = Some i' -> (i <= i')%nat.

(** ** Concrete inputs *)

Definition p_a : particle := Particle.mk 1 2 0.
Definition p_b : particle := Particle.mk 3 4 1.

(** A generator that answers 1/2 to every uniform call and 0 to every
    normal call. *)
Definition demo_state : RandomState :=
  mkRandomState (fun _ => 1 / 2) (fun _ => 0) 0.

(** One landmark, number 1, at (5, 5). *)
Definition demo_landmarks : gmap Z (R * R) := {[ 1%Z := (5, 5) ]}.

(** A coarse rounding, to show the scan at work where sums are not exact:
    to the nearest multiple of 1/4, a tie going up. *)
Definition round_quarter (x : R) : R := IZR (up (4 * x - 1 / 2)) / 4.

(** A map whose only landmark is number 2. *)
Definition far_landmark : gmap Z (R * R) := {[ 2%Z := (5, 5) ]}.

(** One observation of landmark 1 at range 5, and no observation. *)
Definition demo_sensor : Sensor.t := Sensor.mk [1%Z] [5] [0].
Definition empty_sensor : Sensor.t := Sensor.mk [] [] [].

(** One unit forward, and one unit backward. *)
Definition forward : Odometry.delta := Odometry.mk 0 1 0.
Definition backward : Odometry.delta := Odometry.mk 0 (-1) 0.

(** * Properties *)

(** Evaluation of the comparisons of reals met on a concrete run. *)
Ltac decide_reals :=
  repeat match goal with
  | |- context [Rlt_dec ?a ?b] =>
      destruct (Rlt_dec a b); [try (exfalso; lra)|try (exfalso; lra)]
  | |- context [Rgt_dec ?a ?b] =>
      destruct (Rgt_dec a b); [try (exfalso; lra)|try (exfalso; lra)]
  | |- context [Rle_dec ?a ?b] =>
      destruct (Rle_dec a b); [try (exfalso; lra)|try (exfalso; lra)]
  end.

Ltac run_reals :=
  repeat (progress
            (cbn -[Rlt_dec Rgt_dec Rle_dec INR Rdiv Rplus Rmult Rminus Ropp
                   Rabs cos sin sqrt exp PI];
             simpl INR; decide_reals)).

(** ** Results and loops *)

Lemma collect_ok {A B} (f : A -> result B) (P : B -> Prop) (l : list A) :
  (forall a, a ∈ l -> exists b, f a = Ok b /\ P b) ->
  exists bs, collect f l = Ok bs /\ length bs = length l /\ Forall P bs.
Proof.
  induction l as [|a l IH]; intros Hf.
  - exists []. auto.
  - destruct (Hf a) as (b & Hb & HP); [left|].
    destruct IH as (bs & Hbs & Hlen & HF).
    { intros a' Ha'. apply Hf. now right. }
    exists (b :: bs). cbn. rewrite Hb. cbn. rewrite Hbs. cbn.
    repeat split; [now rewrite Hlen | now constructor].
Qed.

Lemma product_loop_ok (body : nat -> result R) (idxs : list nat) (acc : R) :
  (forall i, i ∈ idxs -> exists l, body i = Ok l /\ 0 <= l) ->
  0 <= acc ->
  exists w, product_loop body idxs acc = Ok w /\ 0 <= w.
Proof.
  revert acc. induction idxs as [|i idxs IH]; intros acc Hb Hacc.
  - exists acc. auto.
  - destruct (Hb i) as (l & Hl & Hpos); [left|].
    cbn. rewrite Hl. cbn. apply IH.
    + intros j Hj. apply Hb. now right.
    + now apply Rmult_le_pos.
Qed.

Lemma product_loop_nil (body : nat -> result R) (acc : R) :
  product_loop body [] acc = Ok acc.
Proof. reflexivity. Qed.

(** ** The sensor model *)

Lemma sigma_r_pos : 0 < sigma_r.
Proof. unfold sigma_r. lra. Qed.

Lemma norm_pdf_pos (x loc scale : R) : 0 < scale -> 0 < norm_pdf x loc scale.
Proof.
  intros Hs. unfold norm_pdf.
  assert (0 < sqrt (2 * PI)) by (apply sqrt_lt_R0; pose proof PI_RGT_0; lra).
  repeat apply Rdiv_lt_0_compat; auto. apply exp_pos.
Qed.

Lemma meas_likelihood_ok (sd : Sensor.t) (lms : gmap Z (R * R))
    (p : particle) (i : nat) :
  Forall (fun k => is_Some (lms !! k)) (Sensor.id sd) ->
  length (Sensor.range sd) = length (Sensor.id sd) ->
  length (Sensor.bearing sd) = length (Sensor.id sd) ->
  (i < length (Sensor.id sd))%nat ->
  exists l, meas_likelihood sd lms p i = Ok l /\ 0 <= l.
Proof.
  intros Hids Hr Hb Hi. unfold meas_likelihood, index, getitem.
  destruct (lookup_lt_is_Some_2 (Sensor.id sd) i Hi) as [k Hk].
  destruct (lookup_lt_is_Some_2 (Sensor.range sd) i) as [r Hrg]; [lia|].
  destruct (lookup_lt_is_Some_2 (Sensor.bearing sd) i) as [b Hbg]; [lia|].
  rewrite Hk, Hrg, Hbg. cbn.
  rewrite Forall_forall in Hids.
  destruct (Hids k) as [lm Hlm]; [eapply list_elem_of_lookup_2; eauto|].
  rewrite Hlm. cbn. eexists. split; [reflexivity|].
  left. apply norm_pdf_pos, sigma_r_pos.
Qed.

(** C4: with an empty observation list, every particle gets the weight 1,
    whatever the particles and the landmark map are. *)
Theorem weight_update_no_observation (sd : Sensor.t) (ps : list particle)
    (lms : gmap Z (R * R)) :
  Sensor.id sd = [] ->
  weight_update sd ps lms = Ok (replicate (length ps) 1).
Proof.
  intros Hid. unfold weight_update.
  induction ps as [|p ps IH]; [reflexivity|].
  cbn. unfold particle_weight at 1. rewrite Hid. cbn. now rewrite IH.
Qed.

(** C9: on a well-formed sensor record (parallel lists of equal length, every
    observed landmark id in the map) [weight_update] returns one weight per
    particle and none of them is negative. *)
Theorem weight_update_nonneg (sd : Sensor.t) (ps : list particle)
    (lms : gmap Z (R * R)) :
  Forall (fun k => is_Some (lms !! k)) (Sensor.id sd) ->
  length (Sensor.range sd) = length (Sensor.id sd) ->
  length (Sensor.bearing sd) = length (Sensor.id sd) ->
  exists ws, weight_update sd ps lms = Ok ws
             /\ length ws = length ps
             /\ Forall (fun w => 0 <= w) ws.
Proof.
  intros Hids Hr Hb. unfold weight_update.
  apply collect_ok. intros p _. unfold particle_weight.
  apply product_loop_ok; [|lra].
  intros i Hi. apply elem_of_seq in Hi.
  apply meas_likelihood_ok; auto. lia.
Qed.

(** ** Sums and means *)

Lemma fold_left_Rplus (l : list R) (a : R) :
  fold_left Rplus l a = a + fold_left Rplus l 0.
Proof.
  revert a. induction l as [|w l IH]; intros a; cbn.
  - lra.
  - rewrite IH, (IH (0 + w)). lra.
Qed.

Lemma sum_nil : sum [] = 0.
Proof. reflexivity. Qed.

Lemma sum_cons (w : R) (l : list R) : sum (w :: l) = w + sum l.
Proof. unfold sum. cbn. rewrite fold_left_Rplus. lra. Qed.

Lemma sum_app (l1 l2 : list R) : sum (l1 ++ l2) = sum l1 + sum l2.
Proof.
  induction l1 as [|w l1 IH]; cbn [app].
  - rewrite sum_nil. lra.
  - rewrite !sum_cons, IH. lra.
Qed.

Lemma sum_scale (l : list R) (d : R) :
  sum (map (fun w => w / d) l) = sum l / d.
Proof.
  induction l as [|w l IH]; cbn [map].
  - rewrite sum_nil. lra.
  - rewrite !sum_cons, IH. lra.
Qed.

Lemma sum_fold_right (l : list R) : sum l = fold_right Rplus 0 l.
Proof.
  induction l as [|w l IH]; [reflexivity|].
  rewrite sum_cons, IH. reflexivity.
Qed.

Lemma mean_arithmetic (l : list R) : mean l = arithmetic_mean l.
Proof. unfold mean, arithmetic_mean. now rewrite sum_fold_right. Qed.

(** ** The pose estimate *)

Lemma pose_lists_fold (ps : list particle) (acc : pose_lists) :
  fold_left pose_append ps acc
  = mkPoseLists
      (xs acc ++ map Particle.x ps)
      (ys acc ++ map Particle.y ps)
      (vxs_theta acc ++ map (fun p => cos (Particle.theta p)) ps)
      (vys_theta acc ++ map (fun p => sin (Particle.theta p)) ps).
Proof.
  revert acc. induction ps as [|p ps IH]; intros acc; cbn.
  - destruct acc; cbn. now rewrite !app_nil_r.
  - rewrite IH. cbn. now rewrite <- !app_assoc.
Qed.

Lemma mean_pose_unfold (ps : list particle) :
  mean_pose ps
  = [ mean (map Particle.x ps);
      mean (map Particle.y ps);
      arctan2 (mean (map (fun p => sin (Particle.theta p)) ps))
              (mean (map (fun p => cos (Particle.theta p)) ps)) ].
Proof. unfold mean_pose. now rewrite pose_lists_fold. Qed.

Lemma arctan2_origin : arctan2 0 0 = 0.
Proof.
  unfold arctan2.
  destruct (Rlt_dec 0 0); [lra|]. reflexivity.
Qed.

Lemma arctan2_negative_axis (x : R) : x < 0 -> arctan2 0 x = PI.
Proof.
  intros Hx. unfold arctan2.
  destruct (Rlt_dec 0 x); [lra|].
  destruct (Rlt_dec x 0); [|lra].
  destruct (Rle_dec 0 0); [|lra].
  replace (0 / x) with 0 by (unfold Rdiv; lra).
  rewrite atan_0. lra.
Qed.

(** C5: on a non-empty particle set [mean_pose] returns the arithmetic means
    of the x and of the y coordinates and, as heading, [arctan2] of the mean
    sine and the mean cosine of the headings.  For the two headings
    [PI - 0.01] and [- PI + 0.01] that heading is [PI] (not 0), and when both
    means vanish it is [arctan2 0 0 = 0]. *)
Theorem mean_pose_circular_mean (ps : list particle) :
  ps <> [] ->
  let mean_sin := arithmetic_mean (map (fun p => sin (Particle.theta p)) ps) in
  let mean_cos := arithmetic_mean (map (fun p => cos (Particle.theta p)) ps) in
  mean_pose ps
  = [ arithmetic_mean (map Particle.x ps);
      arithmetic_mean (map Particle.y ps);
      arctan2 mean_sin mean_cos ]
  /\ (forall x1 y1 x2 y2,
        mean_pose [Particle.mk x1 y1 (PI - 0.01);
                   Particle.mk x2 y2 (- PI + 0.01)] !! 2%nat = Some PI)
  /\ (mean_sin = 0 -> mean_cos = 0 -> mean_pose ps !! 2%nat = Some 0).
Proof.
  intros _ mean_sin mean_cos. subst mean_sin mean_cos.
  rewrite mean_pose_unfold, !mean_arithmetic.
  split; [reflexivity|]. split.
  - intros x1 y1 x2 y2. rewrite mean_pose_unfold. cbn [lookup list_lookup].
    f_equal. unfold mean. cbn [map length Particle.theta].
    rewrite !sum_cons, sum_nil.
    replace (- PI + 0.01) with (- (PI - 0.01)) by lra.
    rewrite sin_neg, cos_neg, Rtrigo_facts.cos_pi_minus.
    replace ((sin (PI - 0.01) + (- sin (PI - 0.01) + 0)) / INR 2) with 0
      by (cbn; lra).
    apply arctan2_negative_axis.
    assert (0 < cos 0.01).
    { pose proof PI2_1. apply cos_gt_0; lra. }
    cbn. lra.
  - intros Hs Hc. cbn. rewrite Hs, Hc. now rewrite arctan2_origin.
Qed.

(** ** The generator *)

Lemma skip_0 (s : RandomState) : skip 0 s = s.
Proof. now destruct s. Qed.

Lemma skip_advance (n : nat) (s : RandomState) :
  skip n (advance s) = skip (S n) s.
Proof. unfold skip, advance. cbn. f_equal. lia. Qed.

Lemma skip_skip (n m : nat) (s : RandomState) :
  skip n (skip m s) = skip (n + m) s.
Proof. unfold skip. cbn. f_equal. lia. Qed.

Lemma rng_ok_skip (n : nat) (s : RandomState) : rng_ok s -> rng_ok (skip n s).
Proof. intros H k. apply H. Qed.

Lemma uniform_run (low high : R) (s : RandomState) :
  uniform low high s = Ok (low + (high - low) * unit_draw s 0, skip 1 s).
Proof. reflexivity. Qed.

Lemma normal_run (loc scale : R) (s : RandomState) :
  0 <= scale ->
  normal loc scale s = Ok (loc + scale * gauss_draw s 0, skip 1 s).
Proof.
  intros Hs. unfold normal. destruct (Rlt_dec scale 0); [lra|]. reflexivity.
Qed.

Lemma normal_negative_scale (loc scale : R) (s : RandomState) :
  scale < 0 -> normal loc scale s = Raise ValueError.
Proof.
  intros Hs. unfold normal. destruct (Rlt_dec scale 0); [|lra]. reflexivity.
Qed.

Lemma uniform_range (low high : R) (s : RandomState) :
  rng_ok s -> low < high ->
  low <= low + (high - low) * unit_draw s 0 < high.
Proof.
  intros Hs Hlh. destruct (Hs (0 + position s)%nat) as [H0 H1].
  unfold unit_draw. nra.
Qed.

(** ** generate_particles *)

Lemma generate_particle_run (map_limits : list R) (s : RandomState) :
  (4 <= length map_limits)%nat ->
  generate_particle map_limits s
  = Ok (uniform_particle map_limits
          (unit_draw s 0) (unit_draw s 1) (unit_draw s 2),
        skip 3 s).
Proof.
  intros Hlen.
  destruct map_limits as [|a [|b [|c [|d l]]]]; cbn in Hlen; try lia.
  reflexivity.
Qed.

Lemma generate_particles_run (n : nat) (map_limits : list R)
    (s : RandomState) :
  (4 <= length map_limits)%nat ->
  exists out,
    generate_particles n map_limits s = Ok (out, skip (3 * n) s)
    /\ length out = n
    /\ forall k, (k < n)%nat ->
         out !! k = Some (uniform_particle map_limits
                            (unit_draw s (3 * k))
                            (unit_draw s (3 * k + 1))
                            (unit_draw s (3 * k + 2))).
Proof.
  intros Hlen. revert s. induction n as [|n IH]; intros s.
  - exists []. cbn. rewrite skip_0. repeat split. intros k Hk. lia.
  - destruct (IH (skip 3 s)) as (out & Hrun & Hlo & Hnth).
    exists (uniform_particle map_limits
              (unit_draw s 0) (unit_draw s 1) (unit_draw s 2) :: out).
    cbn [generate_particles]. unfold bind at 1.
    rewrite generate_particle_run by exact Hlen.
    unfold bind at 1. rewrite Hrun. unfold ret.
    rewrite skip_skip. replace (3 * n + 3)%nat with (3 * S n)%nat by lia.
    split; [reflexivity|]. split; [cbn; now rewrite Hlo|].
    intros [|k] Hk; [reflexivity|].
    cbn [lookup list_lookup]. rewrite Hnth by lia.
    unfold unit_draw, skip. cbn [uniform_draws position].
    f_equal. f_equal; (f_equal; lia).
Qed.

Lemma generate_particles_empty_run (map_limits : list R) (s : RandomState) :
  generate_particles 0 map_limits s = Ok ([], s).
Proof. reflexivity. Qed.

Lemma uniform_particle_in_bounds (a b c : R) :
  0 <= a < 1 -> 0 <= b < 1 -> 0 <= c < 1 ->
  in_default_bounds (uniform_particle default_limits a b c).
Proof.
  intros Ha Hb Hc. unfold in_default_bounds, uniform_particle, default_limits.
  cbn [nth Particle.x Particle.y Particle.theta].
  pose proof PI_RGT_0. repeat split; nra.
Qed.

(** ** sample_motion *)

Lemma motion_noise_run (odometry : Odometry.delta) :
  motion_noise odometry = Ok (sigmas_of odometry).
Proof. reflexivity. Qed.

Lemma gauss_draw_skip (n k : nat) (s : RandomState) :
  gauss_draw (skip n s) k = gauss_draw s (k + n).
Proof. unfold gauss_draw, skip. cbn. f_equal. lia. Qed.

Lemma move_particle_run (odometry : Odometry.delta) (p : particle)
    (s : RandomState) :
  nonneg_sigmas (sigmas_of odometry) ->
  move_particle odometry (sigmas_of odometry) p s
  = Ok (moved odometry (gauss_draw s 0) (gauss_draw s 1) (gauss_draw s 2) p,
        skip 3 s).
Proof.
  intros (H1 & H2 & H3). unfold move_particle.
  unfold bind at 1. rewrite normal_run by exact H1.
  unfold bind at 1. rewrite normal_run by exact H2.
  unfold bind at 1. rewrite normal_run by exact H3.
  unfold ret, moved. rewrite !skip_skip, !gauss_draw_skip, !Rplus_0_l.
  reflexivity.
Qed.

Lemma move_particle_raise (odometry : Odometry.delta) (p : particle)
    (s : RandomState) :
  ~ nonneg_sigmas (sigmas_of odometry) ->
  move_particle odometry (sigmas_of odometry) p s = Raise ValueError.
Proof.
  intros Hneg. unfold move_particle.
  destruct (Rlt_dec (sigma_delta_rot1 (sigmas_of odometry)) 0) as [H1|H1].
  { unfold bind at 1. now rewrite normal_negative_scale. }
  unfold bind at 1. rewrite normal_run by lra.
  destruct (Rlt_dec (sigma_delta_trans (sigmas_of odometry)) 0) as [H2|H2].
  { unfold bind at 1. now rewrite normal_negative_scale. }
  unfold bind at 1. rewrite normal_run by lra.
  destruct (Rlt_dec (sigma_delta_rot2 (sigmas_of odometry)) 0) as [H3|H3].
  { unfold bind at 1. now rewrite normal_negative_scale. }
  exfalso. apply Hneg. unfold nonneg_sigmas. lra.
Qed.

Lemma sample_motion_run (odometry : Odometry.delta) (ps : list particle)
    (s : RandomState) :
  nonneg_sigmas (sigmas_of odometry) ->
  exists out,
    sample_motion odometry ps s = Ok (out, skip (3 * length ps) s)
    /\ length out = length ps
    /\ forall k p, ps !! k = Some p ->
         out !! k = Some (moved odometry (gauss_draw s (3 * k))
                            (gauss_draw s (3 * k + 1))
                            (gauss_draw s (3 * k + 2)) p).
Proof.
  intros Hsg. unfold sample_motion. rewrite motion_noise_run.
  unfold bind at 1. cbn [lift].
  revert s. induction ps as [|q ps IH]; intros s.
  - exists []. cbn. rewrite skip_0. repeat split. intros k p Hk. discriminate.
  - destruct (IH (skip 3 s)) as (out & Hrun & Hlo & Hnth).
    exists (moved odometry (gauss_draw s 0) (gauss_draw s 1)
              (gauss_draw s 2) q :: out).
    cbn [for_each]. unfold bind at 1.
    rewrite move_particle_run by exact Hsg.
    unfold bind at 1. rewrite Hrun. unfold ret.
    rewrite skip_skip.
    replace (3 * length ps + 3)%nat with (3 * length (q :: ps))%nat
      by (cbn; lia).
    split; [reflexivity|]. split; [cbn; now rewrite Hlo|].
    intros [|k] p Hk.
    + cbn in Hk. injection Hk as ->. reflexivity.
    + refine (eq_trans (Hnth k p Hk) _).
      rewrite !gauss_draw_skip. f_equal. f_equal; (f_equal; lia).
Qed.

Lemma sample_motion_raise (odometry : Odometry.delta) (ps : list particle)
    (s : RandomState) :
  ~ nonneg_sigmas (sigmas_of odometry) -> ps <> [] ->
  sample_motion odometry ps s = Raise ValueError.
Proof.
  intros Hneg Hps. destruct ps as [|q ps]; [contradiction|].
  unfold sample_motion. rewrite motion_noise_run.
  unfold bind at 1. cbn [lift for_each]. unfold bind at 1.
  now rewrite move_particle_raise.
Qed.

(** ** The claims about sample_motion *)

(** C6, for deviations numpy accepts: the code computes the three noise
    deviations from the odometry; when none is negative, [sample_motion]
    returns, and the particle at position [k] is the input particle at [k]
    moved by the noisy deltas, each the delta plus its deviation times a
    standard normal sample; the new heading is the plain sum
    [theta + noisy_rot1 + noisy_rot2]. *)
Theorem sample_motion_update (odometry : Odometry.delta)
    (particles : list particle) (s : RandomState) :
  nonneg_sigmas (sigmas_of odometry) ->
  let rot1 := Odometry.r1 odometry in
  let trans := Odometry.t odometry in
  let rot2 := Odometry.r2 odometry in
  let sigma_rot1 := 0.1 * Rabs rot1 + 0.1 * trans in
  let sigma_trans := 0.05 * trans + 0.05 * (Rabs rot1 + Rabs rot2) in
  let sigma_rot2 := 0.1 * Rabs rot2 + 0.1 * trans in
  motion_noise odometry = Ok (mkSigmas sigma_rot1 sigma_trans sigma_rot2)
  /\ exists out,
       sample_motion odometry particles s
       = Ok (out, skip (3 * length particles) s)
       /\ forall k p, particles !! k = Some p ->
            let noisy_rot1 := rot1 + sigma_rot1 * gauss_draw s (3 * k) in
            let noisy_trans :=
              trans + sigma_trans * gauss_draw s (3 * k + 1) in
            let noisy_rot2 := rot2 + sigma_rot2 * gauss_draw s (3 * k + 2) in
            out !! k
            = Some (Particle.mk
                      (Particle.x p
                       + noisy_trans * cos (Particle.theta p + noisy_rot1))
                      (Particle.y p
                       + noisy_trans * sin (Particle.theta p + noisy_rot1))
                      (Particle.theta p + noisy_rot1 + noisy_rot2)).
Proof.
  intros Hsg rot1 trans rot2 sigma_rot1 sigma_trans sigma_rot2.
  split; [reflexivity|].
  destruct (sample_motion_run odometry particles s Hsg)
    as (out & Hrun & _ & Hnth).
  exists out. split; [exact Hrun|].
  intros k p Hk. exact (Hnth k p Hk).
Qed.

(** * Runs on concrete inputs *)

Lemma demo_state_ok : rng_ok demo_state.
Proof. intros k. cbn. lra. Qed.

Lemma nonneg_sigmas_forward_motion (odometry : Odometry.delta) :
  0 <= Odometry.t odometry -> nonneg_sigmas (sigmas_of odometry).
Proof.
  intros Ht. unfold nonneg_sigmas, sigmas_of. cbn.
  pose proof (Rabs_pos (Odometry.r1 odometry)).
  pose proof (Rabs_pos (Odometry.r2 odometry)).
  repeat split; lra.
Qed.

Lemma backward_sigmas : ~ nonneg_sigmas (sigmas_of backward).
Proof.
  unfold nonneg_sigmas, sigmas_of, backward. cbn. rewrite Rabs_R0.
  intros (H & _). lra.
Qed.

(** C4 on two particles and the one-landmark map. *)
Lemma weight_update_no_observation_witness :
  Sensor.id empty_sensor = []
  /\ weight_update empty_sensor [p_a; p_b] demo_landmarks = Ok [1; 1].
Proof.
  split; [reflexivity|].
  exact (weight_update_no_observation empty_sensor [p_a; p_b] demo_landmarks
           eq_refl).
Defined.

Lemma demo_sensor_known :
  Forall (fun k => is_Some (demo_landmarks !! k)) (Sensor.id demo_sensor).
Proof.
  constructor; [|constructor]. exists (5, 5).
  unfold demo_landmarks. apply lookup_singleton_eq.
Qed.

(** C9 on one observation of the one landmark. *)
Lemma weight_update_nonneg_witness :
  (Forall (fun k => is_Some (demo_landmarks !! k)) (Sensor.id demo_sensor)
   /\ length (Sensor.range demo_sensor) = length (Sensor.id demo_sensor)
   /\ length (Sensor.bearing demo_sensor) = length (Sensor.id demo_sensor))
  /\ exists ws,
       weight_update demo_sensor [p_a; p_b] demo_landmarks = Ok ws
       /\ length ws = 2%nat
       /\ Forall (fun w => 0 <= w) ws.
Proof.
  split; [split; [exact demo_sensor_known|split; reflexivity]|].
  exact (weight_update_nonneg demo_sensor [p_a; p_b] demo_landmarks
           demo_sensor_known eq_refl eq_refl).
Defined.

Lemma opposed_nonempty : [Particle.mk 0 0 0; Particle.mk 2 4 PI] <> [].
Proof. discriminate. Qed.

(** C5 on two opposed headings, 0 and [PI]: the mean unit vector is zero
    and the heading returned is 0. *)
Lemma mean_pose_circular_mean_witness :
  [Particle.mk 0 0 0; Particle.mk 2 4 PI] <> []
  /\ mean_pose [Particle.mk 0 0 0; Particle.mk 2 4 PI] !! 2%nat = Some 0.
Proof.
  split; [exact opposed_nonempty|].
  destruct (mean_pose_circular_mean
              [Particle.mk 0 0 0; Particle.mk 2 4 PI] opposed_nonempty)
    as (_ & _ & Hzero).
  apply Hzero; unfold arithmetic_mean;
    cbn [map fold_right length Particle.theta]; simpl INR.
  - rewrite sin_0, sin_PI. lra.
  - rewrite cos_0, cos_PI. lra.
Defined.

Lemma forward_sigmas : nonneg_sigmas (sigmas_of forward).
Proof. apply nonneg_sigmas_forward_motion. cbn. lra. Qed.

(** C6 as amended, one unit forward from heading 4 under zero noise samples:
    the new heading is 4 + 0 + 0, left as it is. *)
Lemma sample_motion_update_witness :
  nonneg_sigmas (sigmas_of forward)
  /\ exists out p,
       sample_motion forward [Particle.mk 0 0 4] demo_state
       = Ok (out, skip 3 demo_state)
       /\ out !! 0%nat = Some p
       /\ Particle.theta p = 4.
Proof.
  split; [exact forward_sigmas|].
  destruct (sample_motion_update forward [Particle.mk 0 0 4] demo_state
              forward_sigmas) as (_ & out & Hrun & Hnth).
  specialize (Hnth 0%nat (Particle.mk 0 0 4) eq_refl).
  eexists out, _. split; [exact Hrun|]. split; [exact Hnth|].
  cbn. lra.
Defined.

(** C6 refuted: one unit backward gives the deviation
    [0.1 * |0| + 0.1 * (-1) < 0], and the first draw raises. *)
Lemma sample_motion_backward_raises :
  sample_motion backward [Particle.mk 0 0 0] demo_state = Raise ValueError.
Proof. apply sample_motion_raise; [exact backward_sigmas|discriminate]. Qed.

(** * Further properties of the code *)

(** ** generate_particles *)

Lemma affine_range (lo hi a : R) :
  0 <= a < 1 -> lo < hi -> lo <= lo + (hi - lo) * a < hi.
Proof. intros Ha Hlh. nra. Qed.

(** X1: with four limits, [xmin < xmax] and [ymin < ymax],
    [generate_particles] returns exactly [n] particles after [3 * n] draws,
    and each lies in [xmin, xmax) x [ymin, ymax) with a heading in
    [-pi, pi). *)
Theorem generate_particles_within_limits (n : nat) (xmin xmax ymin ymax : R)
    (s : RandomState) :
  rng_ok s -> xmin < xmax -> ymin < ymax ->
  exists out,
    generate_particles n [xmin; xmax; ymin; ymax] s = Ok (out, skip (3 * n) s)
    /\ length out = n
    /\ Forall (fun p => xmin <= Particle.x p < xmax
                        /\ ymin <= Particle.y p < ymax
                        /\ - PI <= Particle.theta p < PI) out.
Proof.
  intros Hs Hx Hy.
  destruct (generate_particles_run n [xmin; xmax; ymin; ymax] s)
    as (out & Hrun & Hlo & Hnth); [cbn; lia|].
  exists out. split; [exact Hrun|]. split; [exact Hlo|].
  apply Forall_lookup. intros k p Hk.
  assert (Hlt : (k < n)%nat).
  { rewrite <- Hlo. eapply lookup_lt_Some; eauto. }
  rewrite (Hnth k Hlt) in Hk. injection Hk as <-.
  unfold uniform_particle, unit_draw.
  cbn [nth Particle.x Particle.y Particle.theta].
  pose proof PI_RGT_0.
  split; [|split]; apply affine_range; try apply Hs; lra.
Qed.

(** X2: with fewer than four limits, [generate_particles] raises
    [IndexError] as soon as one particle is asked for, and returns the empty
    list, without a draw, when none is. *)
Theorem generate_particles_short_limits (n : nat) (map_limits : list R)
    (s : RandomState) :
  (length map_limits < 4)%nat ->
  generate_particles n map_limits s
  = match n with
    | O => Ok ([], s)
    | S _ => Raise IndexError
    end.
Proof.
  intros Hlen. destruct n as [|n]; [reflexivity|].
  cbn [generate_particles]. unfold bind at 1.
  destruct map_limits as [|a [|b [|c [|d l]]]]; cbn in Hlen; try lia;
    reflexivity.
Qed.

(** ** sample_motion *)

Lemma for_each_app {A B} (f : A -> Rand B) (l1 l2 : list A)
    (s : RandomState) :
  for_each f (l1 ++ l2) s
  = match for_each f l1 s with
    | Ok (b1, s1) =>
        match for_each f l2 s1 with
        | Ok (b2, s2) => Ok (b1 ++ b2, s2)
        | Raise e => Raise e
        end
    | Raise e => Raise e
    end.
Proof.
  revert s. induction l1 as [|a l1 IH]; intros s.
  - cbn. destruct (for_each f l2 s) as [[b2 s2]|e]; reflexivity.
  - cbn [app for_each]. unfold bind at 1 3.
    destruct (f a s) as [[b s1]|e]; [|reflexivity].
    unfold bind at 1 2. rewrite IH.
    destruct (for_each f l1 s1) as [[b1 s2]|e]; [|reflexivity].
    unfold ret.
    destruct (for_each f l2 s2) as [[b2 s3]|e]; reflexivity.
Qed.

Lemma nonneg_sigmas_dec (sg : motion_sigmas) :
  {nonneg_sigmas sg} + {~ nonneg_sigmas sg}.
Proof.
  unfold nonneg_sigmas.
  destruct (Rle_dec 0 (sigma_delta_rot1 sg));
    destruct (Rle_dec 0 (sigma_delta_trans sg));
    destruct (Rle_dec 0 (sigma_delta_rot2 sg)); tauto.
Qed.

(** X3: [sample_motion] returns exactly when the particle list is empty or
    none of the three noise deviations is negative; otherwise it raises
    [ValueError]. *)
Theorem sample_motion_returns_iff (odometry : Odometry.delta)
    (particles : list particle) (s : RandomState) :
  ((exists out s', sample_motion odometry particles s = Ok (out, s'))
   <-> particles = [] \/ nonneg_sigmas (sigmas_of odometry))
  /\ (particles <> [] -> ~ nonneg_sigmas (sigmas_of odometry) ->
      sample_motion odometry particles s = Raise ValueError)
  /\ (particles = [] -> sample_motion odometry particles s = Ok ([], s)).
Proof.
  assert (Hnil : particles = [] ->
                 sample_motion odometry particles s = Ok ([], s)).
  { intros ->. reflexivity. }
  split; [|split; [intros; now apply sample_motion_raise|exact Hnil]].
  split.
  - intros (out & s' & Hrun).
    destruct particles as [|p ps]; [now left|]. right.
    destruct (nonneg_sigmas_dec (sigmas_of odometry)) as [Hsg|Hneg];
      [exact Hsg|].
    rewrite sample_motion_raise in Hrun by (auto; discriminate).
    discriminate.
  - intros [Hps|Hsg].
    + rewrite (Hnil Hps). eauto.
    + destruct (sample_motion_run odometry particles s Hsg)
        as (out & Hrun & _). eauto.
Qed.

Lemma moved_still (g1 g2 g3 : R) (p : particle) :
  moved (Odometry.mk 0 0 0) g1 g2 g3 p = p.
Proof.
  destruct p as [px py ptheta]. unfold moved, sigmas_of.
  cbn [Odometry.r1 Odometry.t Odometry.r2 sigma_delta_rot1
       sigma_delta_trans sigma_delta_rot2 Particle.x Particle.y
       Particle.theta].
  rewrite Rabs_R0. f_equal; lra.
Qed.

(** X4: on the odometry (0, 0, 0) [sample_motion] returns the particles it
    was given, unchanged, after three draws for each of them. *)
Theorem sample_motion_zero_odometry (particles : list particle)
    (s : RandomState) :
  sample_motion (Odometry.mk 0 0 0) particles s
  = Ok (particles, skip (3 * length particles) s).
Proof.
  destruct (sample_motion_run (Odometry.mk 0 0 0) particles s)
    as (out & Hrun & Hlo & Hnth).
  { apply nonneg_sigmas_forward_motion. cbn. lra. }
  rewrite Hrun. do 2 f_equal. apply list_eq. intros k.
  destruct (particles !! k) as [p|] eqn:Hp.
  - rewrite (Hnth k p Hp). now rewrite moved_still.
  - apply lookup_ge_None. rewrite Hlo. now apply lookup_ge_None.
Qed.

(** X5: when no deviation is negative, every particle moves by exactly the
    noisy translation: the squared distance between the particle at [k]
    before and after is the square of [trans] plus its noise, and its
    heading changes by the sum of the two noisy rotations. *)
Theorem sample_motion_displacement (odometry : Odometry.delta)
    (particles : list particle) (s : RandomState) :
  nonneg_sigmas (sigmas_of odometry) ->
  exists out,
    sample_motion odometry particles s
    = Ok (out, skip (3 * length particles) s)
    /\ forall k p, particles !! k = Some p ->
         exists q,
           out !! k = Some q
           /\ (Particle.x q - Particle.x p) ^ 2
              + (Particle.y q - Particle.y p) ^ 2
              = (Odometry.t odometry
                 + sigma_delta_trans (sigmas_of odometry)
                   * gauss_draw s (3 * k + 1)) ^ 2
           /\ Particle.theta q - Particle.theta p
              = Odometry.r1 odometry
                + sigma_delta_rot1 (sigmas_of odometry) * gauss_draw s (3 * k)
                + (Odometry.r2 odometry
                   + sigma_delta_rot2 (sigmas_of odometry)
                     * gauss_draw s (3 * k + 2)).
Proof.
  intros Hsg.
  destruct (sample_motion_run odometry particles s Hsg)
    as (out & Hrun & _ & Hnth).
  exists out. split; [exact Hrun|].
  intros k p Hp. eexists. split; [exact (Hnth k p Hp)|].
  unfold moved. cbn [Particle.x Particle.y Particle.theta].
  split; [|lra].
  match goal with
  | |- (_ + ?nt * cos ?a - _) ^ 2 + _ = _ =>
      pose proof (sin2_cos2 a) as Hsc; unfold Rsqr in Hsc;
      transitivity (nt ^ 2 * (sin a * sin a + cos a * cos a)); [ring|]
  end.
  rewrite Hsc. ring.
Qed.

(** X6: [sample_motion] works through the particles one after the other:
    on a concatenation it is the call on the first part followed by the
    call on the second part from the generator state the first one left. *)
Theorem sample_motion_app (odometry : Odometry.delta)
    (ps1 ps2 : list particle) (s : RandomState) :
  sample_motion odometry (ps1 ++ ps2) s
  = match sample_motion odometry ps1 s with
    | Ok (out1, s1) =>
        match sample_motion odometry ps2 s1 with
        | Ok (out2, s2) => Ok (out1 ++ out2, s2)
        | Raise e => Raise e
        end
    | Raise e => Raise e
    end.
Proof.
  unfold sample_motion. rewrite motion_noise_run.
  unfold bind, lift. apply for_each_app.
Qed.

(** ** weight_update *)

Lemma product_loop_ext (body body' : nat -> result R) (idxs : list nat)
    (acc : R) :
  (forall i, i ∈ idxs -> body i = body' i) ->
  product_loop body idxs acc = product_loop body' idxs acc.
Proof.
  revert acc. induction idxs as [|i idxs IH]; intros acc Hb; [reflexivity|].
  cbn. rewrite <- (Hb i) by left.
  destruct (body i) as [l|e]; [|reflexivity].
  cbn. apply IH. intros j Hj. apply Hb. now right.
Qed.

Lemma product_loop_raise (body : nat -> result R) (e : exn)
    (idxs : list nat) (acc : R) :
  (forall i, i ∈ idxs -> (exists l, body i = Ok l) \/ body i = Raise e) ->
  (exists i, i ∈ idxs /\ body i = Raise e) ->
  product_loop body idxs acc = Raise e.
Proof.
  revert acc. induction idxs as [|i idxs IH]; intros acc Hall (j & Hj & Hbad).
  - inversion Hj.
  - cbn. destruct (Hall i) as [(l & Hl)|Hl]; [left| |];
      rewrite Hl; cbn; [|reflexivity].
    apply IH.
    + intros k Hk. apply Hall. now right.
    + apply elem_of_cons in Hj as [->|Hj]; [congruence|eauto].
Qed.

Lemma collect_ext {A B} (f g : A -> result B) (l : list A) :
  (forall a, a ∈ l -> f a = g a) -> collect f l = collect g l.
Proof.
  induction l as [|a l IH]; intros Hfg; [reflexivity|].
  cbn. rewrite (Hfg a) by left. rewrite IH; [reflexivity|].
  intros b Hb. apply Hfg. now right.
Qed.

Lemma collect_map {A B C} (f : B -> result C) (g : A -> B) (l : list A) :
  collect f (map g l) = collect (fun a => f (g a)) l.
Proof. induction l as [|a l IH]; [reflexivity|]. cbn. now rewrite IH. Qed.

(** What one observation gives once its index is in the id list: a density
    when the range, the bearing and the landmark are there, [IndexError]
    when the range or the bearing is missing, [KeyError] when they are there
    and the landmark is not. *)
Lemma meas_likelihood_cases (sd : Sensor.t) (lms : gmap Z (R * R))
    (p : particle) (i : nat) (k : Z) :
  Sensor.id sd !! i = Some k ->
  ((i < length (Sensor.range sd))%nat
   /\ (i < length (Sensor.bearing sd))%nat
   /\ ((exists l, is_Some (lms !! k) /\ meas_likelihood sd lms p i = Ok l)
       \/ (lms !! k = None /\ meas_likelihood sd lms p i = Raise KeyError)))
  \/ (((length (Sensor.range sd) <= i)%nat
       \/ (length (Sensor.bearing sd) <= i)%nat)
      /\ meas_likelihood sd lms p i = Raise IndexError).
Proof.
  intros Hk. unfold meas_likelihood, index, getitem. rewrite Hk. cbn [rbind].
  destruct (Sensor.range sd !! i) as [r|] eqn:Hr; cbn [rbind].
  2:{ right. apply lookup_ge_None in Hr. auto. }
  destruct (Sensor.bearing sd !! i) as [b|] eqn:Hb; cbn [rbind].
  2:{ right. apply lookup_ge_None in Hb. auto. }
  left. apply lookup_lt_Some in Hr. apply lookup_lt_Some in Hb.
  split; [exact Hr|]. split; [exact Hb|].
  destruct (lms !! k) as [lm|] eqn:Hlm; cbn [rbind]; eauto.
Qed.

(** X7: an observed landmark id that the map lacks makes [weight_update]
    raise [KeyError], as soon as there is a particle to weigh and every
    observation has its range and its bearing. *)
Theorem weight_update_unknown_landmark (sd : Sensor.t) (ps : list particle)
    (lms : gmap Z (R * R)) (k : Z) :
  ps <> [] ->
  (length (Sensor.id sd) <= length (Sensor.range sd))%nat ->
  (length (Sensor.id sd) <= length (Sensor.bearing sd))%nat ->
  k ∈ Sensor.id sd ->
  lms !! k = None ->
  weight_update sd ps lms = Raise KeyError.
Proof.
  intros Hps Hr Hb Hk Hnone. destruct ps as [|p ps]; [contradiction|].
  unfold weight_update. cbn [collect]. unfold particle_weight at 1.
  rewrite (product_loop_raise _ KeyError); [reflexivity| |].
  - intros i Hi. apply elem_of_seq in Hi.
    destruct (lookup_lt_is_Some_2 (Sensor.id sd) i) as [k' Hk']; [lia|].
    destruct (meas_likelihood_cases sd lms p i k' Hk')
      as [(_ & _ & [(l & _ & Hl)|(_ & Hl)])|([Hlen|Hlen] & _)];
      eauto; lia.
  - apply list_elem_of_lookup in Hk as [i Hi]. exists i. split.
    + apply elem_of_seq. apply lookup_lt_Some in Hi. lia.
    + destruct (meas_likelihood_cases sd lms p i k Hi)
        as [(_ & _ & [(l & [lm Hlm] & _)|(_ & Hl)])|([Hlen|Hlen] & _)];
        [congruence|exact Hl| |]; apply lookup_lt_Some in Hi; lia.
Qed.

(** X8: the bearing is read although it is never used: when the landmarks
    are all known and the range list or the bearing list is shorter than
    the id list, [weight_update] raises [IndexError] as soon as there is a
    particle to weigh. *)
Theorem weight_update_short_lists (sd : Sensor.t) (ps : list particle)
    (lms : gmap Z (R * R)) :
  ps <> [] ->
  Forall (fun k => is_Some (lms !! k)) (Sensor.id sd) ->
  (length (Sensor.range sd) < length (Sensor.id sd))%nat
  \/ (length (Sensor.bearing sd) < length (Sensor.id sd))%nat ->
  weight_update sd ps lms = Raise IndexError.
Proof.
  intros Hps Hknown Hshort. destruct ps as [|p ps]; [contradiction|].
  unfold weight_update. cbn [collect]. unfold particle_weight at 1.
  rewrite Forall_forall in Hknown.
  rewrite (product_loop_raise _ IndexError); [reflexivity| |].
  - intros i Hi. apply elem_of_seq in Hi.
    destruct (lookup_lt_is_Some_2 (Sensor.id sd) i) as [k Hk]; [lia|].
    destruct (meas_likelihood_cases sd lms p i k Hk)
      as [(_ & _ & [(l & _ & Hl)|(Hnone & _)])|(_ & Hl)]; eauto.
    destruct (Hknown k) as [lm Hlm]; [eapply list_elem_of_lookup_2; eauto|].
    congruence.
  - set (i := Nat.min (length (Sensor.range sd))
                      (length (Sensor.bearing sd))).
    assert (Hi : (i < length (Sensor.id sd))%nat) by lia.
    exists i. split; [apply elem_of_seq; lia|].
    destruct (lookup_lt_is_Some_2 (Sensor.id sd) i Hi) as [k Hk].
    destruct (meas_likelihood_cases sd lms p i k Hk)
      as [(Hr & Hb & _)|(_ & Hl)]; [lia|exact Hl].
Qed.

(** X9: the values of the bearings play no part: two sensor records with
    the same ids and ranges and as many bearings give the same result. *)
Theorem weight_update_ignores_bearing (ids : list Z)
    (ranges bearings bearings' : list R) (ps : list particle)
    (lms : gmap Z (R * R)) :
  length bearings = length bearings' ->
  weight_update (Sensor.mk ids ranges bearings) ps lms
  = weight_update (Sensor.mk ids ranges bearings') ps lms.
Proof.
  intros Hlen. unfold weight_update. apply collect_ext. intros p _.
  unfold particle_weight. cbn [Sensor.id]. apply product_loop_ext.
  intros i _. unfold meas_likelihood, index.
  cbn [Sensor.id Sensor.range Sensor.bearing].
  destruct (ids !! i); cbn [rbind]; [|reflexivity].
  destruct (ranges !! i); cbn [rbind]; [|reflexivity].
  destruct (bearings !! i) eqn:Hb, (bearings' !! i) eqn:Hb';
    cbn [rbind]; try reflexivity.
  - apply lookup_lt_Some in Hb. apply lookup_ge_None in Hb'. lia.
  - apply lookup_lt_Some in Hb'. apply lookup_ge_None in Hb. lia.
Qed.

(** X10: the sensor model is range-only: the weights do not depend on the
    headings of the particles. *)
Theorem weight_update_ignores_heading (sd : Sensor.t) (ps : list particle)
    (lms : gmap Z (R * R)) (heading : particle -> R) :
  weight_update sd
    (map (fun p => Particle.mk (Particle.x p) (Particle.y p) (heading p)) ps)
    lms
  = weight_update sd ps lms.
Proof.
  unfold weight_update. rewrite collect_map. apply collect_ext.
  intros p _. reflexivity.
Qed.

Lemma sum_replicate (n : nat) (c : R) : sum (replicate n c) = INR n * c.
Proof.
  induction n as [|n IH]; [cbn [replicate INR]; rewrite sum_nil; lra|].
  cbn [replicate]. rewrite sum_cons, IH, S_INR. lra.
Qed.

(** ** mean_pose *)

Lemma atan_nonpos (z : R) : z <= 0 -> atan z <= 0.
Proof.
  intros [Hz| ->]; [|rewrite atan_0; lra].
  pose proof (atan_increasing z 0 Hz) as H. rewrite atan_0 in H. lra.
Qed.

Lemma atan_pos (z : R) : 0 < z -> 0 < atan z.
Proof.
  intros Hz. pose proof (atan_increasing 0 z Hz) as H.
  rewrite atan_0 in H. exact H.
Qed.

(** The angle [arctan2] returns lies in (-pi, pi]. *)
Lemma arctan2_range (y x : R) : - PI < arctan2 y x <= PI.
Proof.
  pose proof PI_RGT_0 as Hpi. pose proof (atan_bound (y / x)) as Hat.
  unfold arctan2.
  destruct (Rlt_dec 0 x) as [Hx|Hx]; [lra|].
  destruct (Rlt_dec x 0) as [Hx'|Hx'].
  - pose proof (Rinv_lt_0_compat x Hx') as Hinv.
    destruct (Rle_dec 0 y) as [Hy|Hy].
    + assert (atan (y / x) <= 0) by (apply atan_nonpos; unfold Rdiv; nra).
      lra.
    + assert (0 < atan (y / x)) by (apply atan_pos; unfold Rdiv; nra).
      lra.
  - destruct (Rlt_dec 0 y); [lra|]. destruct (Rlt_dec y 0); lra.
Qed.

(** [arctan2] gives back the angle of a unit vector. *)
Lemma arctan2_sin_cos (a : R) :
  - PI < a <= PI -> arctan2 (sin a) (cos a) = a.
Proof.
  intros [Hlo Hhi]. pose proof PI_RGT_0 as Hpi. unfold arctan2.
  destruct (Rlt_le_dec a (- (PI / 2))) as [H1|H1].
  { (* third quadrant *)
    assert (Hc : cos a < 0).
    { rewrite <- cos_neg. apply cos_lt_0; lra. }
    assert (Hs : sin a < 0).
    { assert (0 < sin (- a)) by (apply sin_gt_0; lra).
      rewrite sin_neg in H. lra. }
    destruct (Rlt_dec 0 (cos a)); [lra|].
    destruct (Rlt_dec (cos a) 0); [|lra].
    destruct (Rle_dec 0 (sin a)); [lra|].
    assert (Ht : sin a / cos a = tan (a + PI)).
    { unfold tan. rewrite neg_sin, neg_cos. field. lra. }
    rewrite Ht, atan_tan; lra. }
  destruct (Rle_lt_dec a (- (PI / 2))) as [H2|H2].
  { assert (Ha : a = - (PI / 2)) by lra. subst a.
    rewrite sin_neg, cos_neg, sin_PI2, cos_PI2.
    decide_reals. reflexivity. }
  destruct (Rlt_le_dec a (PI / 2)) as [H3|H3].
  { (* right half plane *)
    assert (Hc : 0 < cos a) by (apply cos_gt_0; lra).
    destruct (Rlt_dec 0 (cos a)); [|lra].
    change (sin a / cos a) with (tan a). apply atan_tan. lra. }
  destruct (Rle_lt_dec a (PI / 2)) as [H4|H4].
  { assert (Ha : a = PI / 2) by lra. subst a.
    rewrite sin_PI2, cos_PI2.
    decide_reals. reflexivity. }
  (* second quadrant *)
  assert (Hc : cos a < 0) by (apply cos_lt_0; lra).
  assert (Hs : 0 <= sin a) by (apply sin_ge_0; lra).
  destruct (Rlt_dec 0 (cos a)); [lra|].
  destruct (Rlt_dec (cos a) 0); [|lra].
  destruct (Rle_dec 0 (sin a)); [|lra].
  assert (Ht : sin a / cos a = tan (a - PI)).
  { unfold tan. replace a with (a - PI + PI) at 1 2 by lra.
    rewrite neg_sin, neg_cos. field.
    replace a with (a - PI + PI) in Hc by lra. rewrite neg_cos in Hc. lra. }
  rewrite Ht, atan_tan; lra.
Qed.

Lemma mean_replicate (n : nat) (c : R) :
  (0 < n)%nat -> mean (replicate n c) = c.
Proof.
  intros Hn. unfold mean. rewrite sum_replicate, length_replicate.
  field. apply not_0_INR. lia.
Qed.

Lemma map_constant {A B} (f : A -> B) (b : B) (l : list A) :
  Forall (fun a => f a = b) l -> map f l = replicate (length l) b.
Proof.
  induction 1 as [|a l Ha _ IH]; [reflexivity|].
  cbn. now rewrite Ha, IH.
Qed.

(** X14: whatever the headings of the particles, the heading [mean_pose]
    estimates for a non-empty set lies in [-pi, pi]. *)
Theorem mean_pose_heading_range (ps : list particle) :
  ps <> [] ->
  exists mean_x mean_y mean_theta,
    mean_pose ps = [mean_x; mean_y; mean_theta]
    /\ - PI <= mean_theta <= PI.
Proof.
  intros _. rewrite mean_pose_unfold. do 3 eexists.
  split; [reflexivity|].
  match goal with
  | |- _ <= arctan2 ?y ?x <= _ => pose proof (arctan2_range y x)
  end.
  lra.
Qed.

(** X15: when every particle has the same heading, in (-pi, pi], that
    heading is the one [mean_pose] estimates; when the particles are all
    the same, [mean_pose] returns their pose. *)
Theorem mean_pose_common_heading (ps : list particle) (a : R) :
  ps <> [] ->
  - PI < a <= PI ->
  Forall (fun p => Particle.theta p = a) ps ->
  mean_pose ps !! 2%nat = Some a
  /\ forall px py,
       Forall (fun p => p = Particle.mk px py a) ps ->
       mean_pose ps = [px; py; a].
Proof.
  intros Hps Ha Hall.
  assert (Hn : (0 < length ps)%nat).
  { destruct ps; [contradiction|cbn; lia]. }
  assert (Hheading :
    arctan2 (mean (map (fun p => sin (Particle.theta p)) ps))
            (mean (map (fun p => cos (Particle.theta p)) ps)) = a).
  { rewrite (map_constant (fun p => sin (Particle.theta p)) (sin a)),
            (map_constant (fun p => cos (Particle.theta p)) (cos a)).
    - rewrite !mean_replicate by exact Hn. now apply arctan2_sin_cos.
    - eapply Forall_impl; [exact Hall|]. cbn. now intros p ->.
    - eapply Forall_impl; [exact Hall|]. cbn. now intros p ->. }
  rewrite mean_pose_unfold. split.
  - cbn [lookup list_lookup]. now rewrite Hheading.
  - intros px py Hsame. rewrite Hheading.
    rewrite (map_constant Particle.x px), (map_constant Particle.y py).
    + now rewrite !mean_replicate by exact Hn.
    + eapply Forall_impl; [exact Hsame|]. cbn. now intros p ->.
    + eapply Forall_impl; [exact Hsame|]. cbn. now intros p ->.
Qed.

(** ** plot *)

Lemma particle_series_maps (ps : list particle) :
  particle_series ps = (map Particle.x ps, map Particle.y ps).
Proof.
  unfold particle_series.
  assert (H : forall acc,
             fold_left
               (fun acc p =>
                  (fst acc ++ [Particle.x p], snd acc ++ [Particle.y p]))
               ps acc
             = (fst acc ++ map Particle.x ps, snd acc ++ map Particle.y ps)).
  { induction ps as [|p ps IH]; intros [l1 l2]; cbn.
    - now rewrite !app_nil_r.
    - rewrite IH. cbn. now rewrite <- !app_assoc. }
  apply H.
Qed.

(** The loop over the landmarks either finds every id it asks for and
    returns their coordinates in order, or misses one and raises
    [KeyError]. *)
Lemma landmark_series_cases (lms : gmap Z (R * R)) (idxs : list nat)
    (lx ly : list R) :
  (Forall (fun i => is_Some (lms !! (Z.of_nat i + 1)%Z)) idxs
   /\ landmark_series lms idxs lx ly
      = Ok (lx ++ map (fun i => fst (default (0, 0)
                                       (lms !! (Z.of_nat i + 1)%Z))) idxs,
            ly ++ map (fun i => snd (default (0, 0)
                                       (lms !! (Z.of_nat i + 1)%Z))) idxs))
  \/ (Exists (fun i => lms !! (Z.of_nat i + 1)%Z = None) idxs
      /\ landmark_series lms idxs lx ly = Raise KeyError).
Proof.
  revert lx ly. induction idxs as [|i idxs IH]; intros lx ly.
  - left. split; [constructor|]. cbn. now rewrite !app_nil_r.
  - cbn [landmark_series]. unfold getitem.
    destruct (lms !! (Z.of_nat i + 1)%Z) as [lm|] eqn:Hlm; cbn [rbind].
    + destruct (IH (lx ++ [fst lm]) (ly ++ [snd lm]))
        as [(Hall & Hrun)|(Hex & Hrun)]; rewrite Hrun.
      * left. split; [constructor; [rewrite Hlm; eauto|exact Hall]|].
        cbn [map]. rewrite Hlm. cbn. now rewrite <- !app_assoc.
      * right. split; [now apply Exists_cons_tl|reflexivity].
    + right. split; [now apply Exists_cons_hd|reflexivity].
Qed.

(** The ids from 1 to [n]. *)
Lemma elem_of_ids (n : nat) (k : Z) :
  k ∈ ((fun i => (Z.of_nat i + 1)%Z) <$> seq 0 n)
  <-> (1 <= k <= Z.of_nat n)%Z.
Proof.
  rewrite list_elem_of_fmap. split.
  - intros (i & -> & Hi). apply elem_of_seq in Hi. lia.
  - intros Hk. exists (Z.to_nat (k - 1)). split; [lia|].
    apply elem_of_seq. lia.
Qed.

(** A map that has the keys 1 to its size has no other key. *)
Lemma consecutive_keys (lms : gmap Z (R * R)) :
  (forall k, (1 <= k <= Z.of_nat (size lms))%Z -> is_Some (lms !! k)) ->
  forall k, is_Some (lms !! k) -> (1 <= k <= Z.of_nat (size lms))%Z.
Proof.
  intros Hall k Hk.
  set (ids := (fun i => (Z.of_nat i + 1)%Z) <$> seq 0 (size lms)).
  assert (Heq : (list_to_set ids : gset Z) = dom lms).
  { apply set_subseteq_size_eq.
    - intros j Hj. apply elem_of_list_to_set, elem_of_ids in Hj.
      apply elem_of_dom. now apply Hall.
    - rewrite size_dom, size_list_to_set.
      + unfold ids. now rewrite length_fmap, length_seq.
      + apply NoDup_fmap; [intros i j; lia|apply NoDup_seq]. }
  apply elem_of_dom in Hk. rewrite <- Heq in Hk.
  now apply elem_of_list_to_set, elem_of_ids in Hk.
Qed.

(** X16: [plot] asks the landmark map for the ids 1 to [len(landmarks)]:
    it gets through exactly when the ids of the map are the consecutive
    integers from 1, and raises [KeyError] otherwise.  When it gets through,
    the series it hands to the drawing are the particle coordinates, the
    landmark coordinates by increasing id, and [mean_pose] of the
    particles. *)
Theorem plot_consecutive_landmark_ids (ps : list particle)
    (lms : gmap Z (R * R)) :
  let n := size lms in
  let consecutive :=
    forall k, is_Some (lms !! k) <-> (1 <= k <= Z.of_nat n)%Z in
  ((exists d, plot ps lms = Ok d) <-> consecutive)
  /\ (~ consecutive -> plot ps lms = Raise KeyError)
  /\ (forall d, plot ps lms = Ok d ->
        plot_xs d = map Particle.x ps
        /\ plot_ys d = map Particle.y ps
        /\ length (plot_lx d) = n
        /\ length (plot_ly d) = n
        /\ (forall i lm, (i < n)%nat ->
              lms !! (Z.of_nat i + 1)%Z = Some lm ->
              plot_lx d !! i = Some (fst lm)
              /\ plot_ly d !! i = Some (snd lm))
        /\ estimated_pose d = mean_pose ps).
Proof.
  intros n consecutive. unfold plot. rewrite particle_series_maps.
  destruct (landmark_series_cases lms (seq 0 (size lms)) [] [])
    as [(Hall & Hrun)|(Hex & Hrun)]; rewrite Hrun; cbn [rbind].
  - assert (Hcons : consecutive).
    { assert (Hin : forall k, (1 <= k <= Z.of_nat (size lms))%Z ->
                              is_Some (lms !! k)).
      { intros k Hk. rewrite Forall_forall in Hall.
        replace k with (Z.of_nat (Z.to_nat (k - 1)) + 1)%Z by lia.
        apply Hall. apply elem_of_seq. lia. }
      intros k. split; [now apply consecutive_keys|apply Hin]. }
    split; [split; [intros _; exact Hcons|eauto]|].
    split; [intros Hno; contradiction|].
    intros d Hd. injection Hd as <-. cbn.
    rewrite !length_map, !length_seq.
    do 4 (split; [reflexivity|]). split; [|reflexivity].
    intros i lm Hi Hlm.
    split; refine (eq_trans (list_lookup_fmap _ _ i) _);
      rewrite lookup_seq_lt by exact Hi; cbn; now rewrite Hlm.
  - assert (Hno : ~ consecutive).
    { intros Hcons. apply Exists_exists in Hex as (i & Hi & Hnone).
      apply elem_of_seq in Hi.
      destruct (proj2 (Hcons (Z.of_nat i + 1)%Z)) as [lm Hlm]; [fold n; lia|].
      congruence. }
    split; [split; [intros (d & Hd); discriminate|intros; contradiction]|].
    split; [reflexivity|]. intros d Hd. discriminate.
Qed.

(** * Runs of the further properties *)

Lemma generate_particles_within_limits_witness :
  (rng_ok demo_state /\ 0 < 4 /\ 0 < 2)
  /\ exists out,
       generate_particles 3 [0; 4; 0; 2] demo_state
       = Ok (out, skip 9 demo_state)
       /\ length out = 3%nat.
Proof.
  assert (H04 : 0 < 4) by lra. assert (H02 : 0 < 2) by lra.
  split; [split; [exact demo_state_ok|split; assumption]|].
  destruct (generate_particles_within_limits 3 0 4 0 2 demo_state
              demo_state_ok H04 H02) as (out & Hrun & Hlen & _).
  exists out. split; [exact Hrun|exact Hlen].
Defined.

Lemma short_limits : (length [0; 4; 0] < 4)%nat.
Proof. cbn. lia. Qed.

Lemma generate_particles_short_limits_witness :
  (length [0; 4; 0] < 4)%nat
  /\ generate_particles 2 [0; 4; 0] demo_state = Raise IndexError
  /\ generate_particles 0 [0; 4; 0] demo_state = Ok ([], demo_state).
Proof.
  split; [exact short_limits|]. split.
  - exact (generate_particles_short_limits 2 [0; 4; 0] demo_state
             short_limits).
  - exact (generate_particles_short_limits 0 [0; 4; 0] demo_state
             short_limits).
Defined.

Lemma sample_motion_displacement_witness :
  nonneg_sigmas (sigmas_of forward)
  /\ exists out q,
       sample_motion forward [p_a] demo_state = Ok (out, skip 3 demo_state)
       /\ out !! 0%nat = Some q
       /\ (Particle.x q - Particle.x p_a) ^ 2
          + (Particle.y q - Particle.y p_a) ^ 2 = 1.
Proof.
  split; [exact forward_sigmas|].
  destruct (sample_motion_displacement forward [p_a] demo_state
              forward_sigmas) as (out & Hrun & Hnth).
  destruct (Hnth 0%nat p_a eq_refl) as (q & Hq & Hdist & _).
  exists out, q. split; [exact Hrun|]. split; [exact Hq|].
  rewrite Hdist. cbn. lra.
Defined.

Lemma one_particle : [p_a] <> [].
Proof. discriminate. Qed.

Lemma landmark_2_unknown : demo_landmarks !! 2%Z = None.
Proof. unfold demo_landmarks. now apply lookup_singleton_ne. Qed.

Lemma weight_update_unknown_landmark_witness :
  ([p_a] <> [] /\ demo_landmarks !! 2%Z = None)
  /\ weight_update (Sensor.mk [2%Z] [5] [0]) [p_a] demo_landmarks
     = Raise KeyError.
Proof.
  split; [split; [exact one_particle|exact landmark_2_unknown]|].
  apply (weight_update_unknown_landmark (Sensor.mk [2%Z] [5] [0]) [p_a]
           demo_landmarks 2%Z one_particle).
  - cbn. lia.
  - cbn. lia.
  - cbn. left.
  - exact landmark_2_unknown.
Defined.

Lemma weight_update_short_lists_witness :
  [p_a] <> []
  /\ weight_update (Sensor.mk [1%Z] [5] []) [p_a] demo_landmarks
     = Raise IndexError.
Proof.
  split; [exact one_particle|].
  apply (weight_update_short_lists (Sensor.mk [1%Z] [5] []) [p_a]
           demo_landmarks one_particle demo_sensor_known).
  right. cbn. lia.
Defined.

Lemma weight_update_ignores_bearing_witness :
  length [0] = length [3]
  /\ weight_update (Sensor.mk [1%Z] [5] [0]) [p_a; p_b] demo_landmarks
     = weight_update (Sensor.mk [1%Z] [5] [3]) [p_a; p_b] demo_landmarks.
Proof.
  split; [reflexivity|].
  exact (weight_update_ignores_bearing [1%Z] [5] [0] [3] [p_a; p_b]
           demo_landmarks eq_refl).
Defined.

Lemma two_particles : [p_a; p_b] <> [].
Proof. discriminate. Qed.

Lemma mean_pose_heading_range_witness :
  [p_a; p_b] <> []
  /\ exists mean_x mean_y mean_theta,
       mean_pose [p_a; p_b] = [mean_x; mean_y; mean_theta]
       /\ - PI <= mean_theta <= PI.
Proof.
  split; [exact two_particles|].
  exact (mean_pose_heading_range [p_a; p_b] two_particles).
Defined.

Lemma quarter_turn_range : - PI < PI / 2 <= PI.
Proof. pose proof PI_RGT_0. lra. Qed.

Lemma mean_pose_common_heading_witness :
  ([Particle.mk 1 2 (PI / 2); Particle.mk 3 4 (PI / 2)] <> []
   /\ - PI < PI / 2 <= PI)
  /\ mean_pose [Particle.mk 1 2 (PI / 2); Particle.mk 3 4 (PI / 2)] !! 2%nat
     = Some (PI / 2).
Proof.
  assert (Hne : [Particle.mk 1 2 (PI / 2); Particle.mk 3 4 (PI / 2)] <> [])
    by discriminate.
  split; [split; [exact Hne|exact quarter_turn_range]|].
  apply (mean_pose_common_heading
           [Particle.mk 1 2 (PI / 2); Particle.mk 3 4 (PI / 2)] (PI / 2)
           Hne quarter_turn_range).
  repeat constructor.
Defined.

(** * resample_particles and the filter loop *)

(** ** Rounding *)

Lemma no_rounding_ok : rounding_ok no_rounding.
Proof. unfold rounding_ok, no_rounding. auto. Qed.

Lemma fsum_no_rounding (l : list R) : fsum no_rounding l = sum l.
Proof. reflexivity. Qed.

Lemma fsum_nil (fl : R -> R) : fsum fl [] = 0.
Proof. reflexivity. Qed.

(** The grid of thresholds never steps back. *)
Lemma threshold_step (fl : R -> R) (step u : R) (k : nat) :
  rounding_ok fl -> fl u = u -> 0 <= step ->
  threshold fl step u k <= threshold fl step u (S k).
Proof.
  intros (Hmono & Hidem & _) Hu Hstep. revert u Hu.
  induction k as [|k IH]; intros u Hu.
  - cbn. rewrite <- Hu at 1. apply Hmono. lra.
  - change (threshold fl step (fl (u + step)) k
            <= threshold fl step (fl (u + step)) (S k)).
    apply IH, Hidem.
Qed.

Lemma threshold_above (fl : R -> R) (step u : R) (k : nat) :
  rounding_ok fl -> fl u = u -> 0 <= step -> u <= threshold fl step u k.
Proof.
  intros Hfl Hu Hstep. induction k as [|k IH]; [cbn; lra|].
  pose proof (threshold_step fl step u k Hfl Hu Hstep). lra.
Qed.

Lemma stride_nonneg (fl : R -> R) (particles : list particle) :
  rounding_ok fl -> particles <> [] -> 0 <= stride fl particles.
Proof.
  intros (Hmono & _ & H0 & _) Hps. unfold stride. rewrite <- H0.
  apply Hmono. apply Rlt_le, Rdiv_lt_0_compat; [lra|].
  apply lt_0_INR. destruct particles; [contradiction|cbn; lia].
Qed.

Lemma offset_rounded (fl : R -> R) (particles : list particle)
    (s : RandomState) :
  rounding_ok fl -> fl (offset fl particles s) = offset fl particles s.
Proof. intros (_ & Hidem & _). apply Hidem. Qed.

(** ** The cumulative-weight scan *)

Lemma cumulative_0 (fl : R -> R) (ws : list R) (w : R) :
  ws !! 0%nat = Some w -> cumulative fl ws 0 = w.
Proof.
  destruct ws as [|w' ws]; intros Hw; [discriminate|].
  injection Hw as ->. reflexivity.
Qed.

Lemma cumulative_S (fl : R -> R) (ws : list R) (i : nat) (w : R) :
  ws !! S i = Some w ->
  cumulative fl ws (S i) = fl (cumulative fl ws i + w).
Proof.
  destruct ws as [|w0 rest]; intros Hw; [discriminate|].
  cbn [lookup list_lookup] in Hw. unfold cumulative.
  rewrite (take_S_r rest i w Hw), fold_left_app. reflexivity.
Qed.

Lemma scan_inv_mono (fl : R -> R) (ws : list R) (u u' : R) (ptr : pointer) :
  u <= u' -> scan_inv fl ws u ptr -> scan_inv fl ws u' ptr.
Proof.
  intros Hu (Hi & Hrest & Hc & Hlow). repeat split; auto.
  intros j Hj. specialize (Hlow j Hj). lra.
Qed.

(** The [while] loop either stops on the smallest index whose cumulative
    weight reaches [u], or runs off the end of the weights, and then no
    cumulative weight reaches [u]. *)
Lemma advance_pointer_spec (fl : R -> R) (ws : list R) (u : R)
    (ptr : pointer) :
  scan_inv fl ws u ptr ->
  match advance_pointer fl (ptr_rest ptr) u (ptr_c ptr) (ptr_i ptr) with
  | Ok ptr' => scan_inv fl ws u ptr' /\ u <= ptr_c ptr'
  | Raise e =>
      e = IndexError
      /\ forall j, (j < length ws)%nat -> cumulative fl ws j < u
  end.
Proof.
  destruct ptr as [c i rest]. cbn [ptr_c ptr_i ptr_rest].
  revert c i. induction rest as [|w rest IH]; intros c i Hinv;
    pose proof Hinv as (Hi & Hrest & Hc & Hlow);
    cbn [ptr_c ptr_i ptr_rest] in *; cbn [advance_pointer];
    destruct (Rgt_dec u c) as [Hgt|Hle].
  - split; [reflexivity|]. intros j Hj.
    symmetry in Hrest. apply drop_nil_inv in Hrest.
    destruct (decide (j = i)) as [->|Hne]; [lra|]. apply Hlow. lia.
  - split; [exact Hinv|]. cbn. lra.
  - assert (Hw : ws !! S i = Some w).
    { rewrite <- (Nat.add_0_r (S i)), <- lookup_drop, <- Hrest. reflexivity. }
    apply IH. repeat split; cbn [ptr_c ptr_i ptr_rest].
    + eapply lookup_lt_Some; eauto.
    + rewrite (drop_S ws w (S i) Hw) in Hrest. congruence.
    + rewrite (cumulative_S fl ws i w Hw). now rewrite Hc.
    + intros j Hj. destruct (decide (j = i)) as [->|Hne]; [lra|].
      apply Hlow. lia.
  - split; [exact Hinv|]. cbn. lra.
Qed.

Lemma scan_inv_selected (fl : R -> R) (ws : list R) (u : R) (ptr : pointer) :
  scan_inv fl ws u ptr -> u <= ptr_c ptr -> selected fl ws u (ptr_i ptr).
Proof.
  intros (Hi & _ & Hc & Hlow) Hu. repeat split; auto. now rewrite <- Hc.
Qed.

Lemma advance_pointer_index_mono (fl : R -> R) (rest : list R) (u c : R)
    (i : nat) (ptr' : pointer) :
  advance_pointer fl rest u c i = Ok ptr' -> (i <= ptr_i ptr')%nat.
Proof.
  revert c i. induction rest as [|w rest IH]; intros c i; cbn;
    destruct (Rgt_dec u c); intros Hrun; try discriminate;
    try (injection Hrun as <-; cbn; lia).
  apply IH in Hrun. lia.
Qed.

Lemma advance_pointer_raise (fl : R -> R) (rest : list R) (u c : R)
    (i : nat) (e : exn) :
  advance_pointer fl rest u c i = Raise e -> e = IndexError.
Proof.
  revert c i. induction rest as [|w rest IH]; intros c i; cbn;
    destruct (Rgt_dec u c); intros Hrun; try congruence.
  now apply IH in Hrun.
Qed.

(** Whatever the rounding and the lengths, the loop raises nothing but
    [IndexError], and what it returns has one entry per visited particle,
    each taken from [particles]. *)
Lemma resample_loop_cases (fl : R -> R) (particles todo : list particle)
    (step u : R) (ptr : pointer) :
  match resample_loop fl particles todo step u ptr with
  | Ok out => length out = length todo /\ Forall (fun p => p ∈ particles) out
  | Raise e => e = IndexError
  end.
Proof.
  revert u ptr. induction todo as [|q todo IH]; intros u ptr.
  - cbn. auto.
  - cbn [resample_loop].
    destruct (advance_pointer fl (ptr_rest ptr) u (ptr_c ptr) (ptr_i ptr))
      as [ptr'|e] eqn:Hadv; cbn [rbind].
    + unfold index. destruct (particles !! ptr_i ptr') as [p|] eqn:Hp;
        cbn [rbind]; [|reflexivity].
      specialize (IH (fl (u + step)) ptr').
      destruct (resample_loop fl particles todo step (fl (u + step)) ptr')
        as [out|e]; cbn [rbind]; [|exact IH].
      destruct IH as [Hlen Hall]. split; [cbn; now rewrite Hlen|].
      constructor; [|exact Hall]. eapply list_elem_of_lookup_2; eauto.
    + eapply advance_pointer_raise; eauto.
Qed.

(** With a grid that never steps back, position [k] of what the loop returns
    holds the particle selected for threshold [k]; and the loop raises
    exactly when some threshold is reached by no index inside both
    sequences. *)
Lemma resample_loop_char (fl : R -> R) (ws : list R)
    (particles todo : list particle) (step u : R) (ptr : pointer) :
  scan_inv fl ws u ptr ->
  (forall k, threshold fl step u k <= threshold fl step u (S k)) ->
  match resample_loop fl particles todo step u ptr with
  | Ok out =>
      forall k, (k < length todo)%nat ->
        exists i p, out !! k = Some p /\ particles !! i = Some p
                    /\ selected fl ws (threshold fl step u k) i
  | Raise e =>
      exists k, (k < length todo)%nat
        /\ forall i, (i < length ws)%nat -> (i < length particles)%nat ->
             cumulative fl ws i < threshold fl step u k
  end.
Proof.
  revert u ptr. induction todo as [|q todo IH]; intros u ptr Hinv Hgrid.
  - cbn. intros k Hk. lia.
  - cbn [resample_loop].
    pose proof (advance_pointer_spec fl ws u ptr Hinv) as Hadv.
    destruct (advance_pointer fl (ptr_rest ptr) u (ptr_c ptr) (ptr_i ptr))
      as [ptr'|e]; cbn [rbind].
    2:{ destruct Hadv as [_ Hall]. exists 0%nat. split; [cbn; lia|].
        intros i Hi _. now apply Hall. }
    destruct Hadv as [Hinv' Hu].
    pose proof (scan_inv_selected fl ws u ptr' Hinv' Hu) as Hsel.
    unfold index. destruct (particles !! ptr_i ptr') as [p|] eqn:Hp;
      cbn [rbind].
    2:{ exists 0%nat. split; [cbn; lia|]. intros i _ Hi.
        apply lookup_ge_None in Hp. destruct Hsel as (_ & _ & Hlow).
        apply Hlow. lia. }
    assert (Hinv'' : scan_inv fl ws (fl (u + step)) ptr').
    { eapply scan_inv_mono; [|exact Hinv']. exact (Hgrid 0%nat). }
    specialize (IH (fl (u + step)) ptr' Hinv'' (fun k => Hgrid (S k))).
    destruct (resample_loop fl particles todo step (fl (u + step)) ptr')
      as [out|e]; cbn [rbind].
    + intros [|k] Hk.
      * exists (ptr_i ptr'), p. auto.
      * cbn [length] in Hk. destruct (IH k) as (i & p' & H1 & H2 & H3);
          [lia|]. exists i, p'. auto.
    + destruct IH as (k & Hk & Hall). exists (S k). split; [cbn; lia|].
      exact Hall.
Qed.

Lemma nondecreasing_cons (i : nat) (idxs : list nat) :
  Forall (fun i' => (i <= i')%nat) idxs -> nondecreasing idxs ->
  nondecreasing (i :: idxs).
Proof.
  intros Hall Hmono [|j] [|k] a b Hjk Ha Hb; cbn in Ha, Hb.
  - injection Ha as <-. injection Hb as <-. lia.
  - injection Ha as <-. rewrite Forall_forall in Hall. apply Hall.
    eapply list_elem_of_lookup_2; eauto.
  - lia.
  - apply (Hmono j k); auto. lia.
Qed.

(** The indices the loop reads its output from never step back. *)
Lemma resample_loop_indices (fl : R -> R) (particles todo : list particle)
    (step u : R) (ptr : pointer) (out : list particle) :
  resample_loop fl particles todo step u ptr = Ok out ->
  exists idxs,
    Forall2 (fun i p => particles !! i = Some p) idxs out
    /\ Forall (fun i => (ptr_i ptr <= i)%nat) idxs
    /\ nondecreasing idxs.
Proof.
  revert u ptr out. induction todo as [|q todo IH]; intros u ptr out Hrun.
  - injection Hrun as <-. exists []. repeat split; [constructor..|].
    intros j k i i' _ Hj. discriminate.
  - cbn [resample_loop] in Hrun.
    destruct (advance_pointer fl (ptr_rest ptr) u (ptr_c ptr) (ptr_i ptr))
      as [ptr'|e] eqn:Hadv; cbn [rbind] in Hrun; [|discriminate].
    apply advance_pointer_index_mono in Hadv.
    unfold index in Hrun.
    destruct (particles !! ptr_i ptr') as [p|] eqn:Hp;
      cbn [rbind] in Hrun; [|discriminate].
    destruct (resample_loop fl particles todo step (fl (u + step)) ptr')
      as [out'|e] eqn:Hrest; cbn [rbind] in Hrun; [|discriminate].
    injection Hrun as <-.
    destruct (IH _ _ _ Hrest) as (idxs & Hsel & Hlow & Hmono).
    exists (ptr_i ptr' :: idxs). split; [now constructor|]. split.
    + constructor; [exact Hadv|].
      eapply Forall_impl; [exact Hlow|]. cbn. intros. lia.
    + now apply nondecreasing_cons.
Qed.

(** ** The branches of resample_particles *)

Lemma resample_particles_collapse (fl : R -> R) (particles : list particle)
    (kind : weight_kind) (weights : list R) (s : RandomState) :
  fsum fl weights < 0.01 ->
  resample_particles fl particles kind weights s
  = generate_particles (length weights) default_limits s.
Proof.
  intros Hsum. unfold resample_particles.
  destruct (Rlt_dec (fsum fl weights) 0.01); [reflexivity|lra].
Qed.

Lemma noncollapse_nonempty (fl : R -> R) (weights : list R) :
  0.01 <= fsum fl weights -> weights <> [].
Proof. intros Hsum ->. rewrite fsum_nil in Hsum. lra. Qed.

Lemma resample_particles_plain (fl : R -> R) (particles : list particle)
    (weights : list R) (s : RandomState) :
  0.01 <= fsum fl weights ->
  resample_particles fl particles PlainFloats weights s = Raise TypeError.
Proof.
  intros Hsum. unfold resample_particles.
  destruct (Rlt_dec (fsum fl weights) 0.01); [lra|]. reflexivity.
Qed.

Lemma resample_particles_no_particle (fl : R -> R) (weights : list R)
    (s : RandomState) :
  0.01 <= fsum fl weights ->
  resample_particles fl [] NumpyValues weights s = Raise ZeroDivisionError.
Proof.
  intros Hsum. unfold resample_particles.
  destruct (Rlt_dec (fsum fl weights) 0.01); [lra|]. reflexivity.
Qed.

Lemma resample_particles_scan (fl : R -> R) (particles : list particle)
    (weights : list R) (s : RandomState) :
  0.01 <= fsum fl weights -> particles <> [] ->
  resample_particles fl particles NumpyValues weights s
  = lift (resample_loop fl particles particles (stride fl particles)
            (offset fl particles s)
            (mkPointer (cumulative fl (normalized fl weights) 0) 0
               (drop 1 (normalized fl weights))))
      (skip 1 s).
Proof.
  intros Hsum Hps. unfold resample_particles.
  destruct (Rlt_dec (fsum fl weights) 0.01); [lra|].
  destruct particles as [|q particles]; [contradiction|].
  destruct weights as [|w weights]; [now apply noncollapse_nonempty in Hsum|].
  reflexivity.
Qed.

Lemma normalized_length (fl : R -> R) (weights : list R) :
  length (normalized fl weights) = length weights.
Proof. unfold normalized. apply length_map. Qed.

Lemma normalized_lookup (fl : R -> R) (weights : list R) (i : nat) (w : R) :
  weights !! i = Some w ->
  normalized fl weights !! i = Some (fl (w / fsum fl weights)).
Proof.
  intros Hw. unfold normalized.
  refine (eq_trans (list_lookup_fmap _ weights i) _). now rewrite Hw.
Qed.

Lemma scan_inv_start (fl : R -> R) (ws : list R) (u : R) :
  ws <> [] ->
  scan_inv fl ws u (mkPointer (cumulative fl ws 0) 0 (drop 1 ws)).
Proof.
  intros Hws. repeat split; cbn [ptr_i ptr_c ptr_rest].
  - destruct ws; [contradiction|cbn; lia].
  - intros j Hj. lia.
Qed.

(** What a call does on numpy values in the non-collapse path, for a
    rounding that keeps the order: it returns after one draw the particles
    selected by the grid of thresholds, or raises [IndexError] because a
    threshold is reached by no index inside both sequences. *)
Lemma resample_particles_char (fl : R -> R) (particles : list particle)
    (weights : list R) (s : RandomState) :
  rounding_ok fl -> 0.01 <= fsum fl weights -> particles <> [] ->
  match resample_particles fl particles NumpyValues weights s with
  | Ok (out, s') =>
      s' = skip 1 s
      /\ length out = length particles
      /\ forall k, (k < length particles)%nat ->
           exists i p, out !! k = Some p /\ particles !! i = Some p
             /\ selected fl (normalized fl weights)
                  (threshold fl (stride fl particles)
                     (offset fl particles s) k) i
  | Raise e =>
      e = IndexError
      /\ exists k, (k < length particles)%nat
                   /\ ~ reached fl particles weights s k
  end.
Proof.
  intros Hfl Hsum Hps. rewrite resample_particles_scan by assumption.
  pose proof (resample_loop_cases fl particles particles
                (stride fl particles) (offset fl particles s)
                (mkPointer (cumulative fl (normalized fl weights) 0) 0
                   (drop 1 (normalized fl weights)))) as Hcases.
  pose proof (resample_loop_char fl (normalized fl weights) particles
                particles (stride fl particles) (offset fl particles s)
                (mkPointer (cumulative fl (normalized fl weights) 0) 0
                   (drop 1 (normalized fl weights)))) as Hchar.
  destruct (resample_loop _ _ _ _ _ _) as [out|e]; cbn [lift].
  - split; [reflexivity|]. split; [apply Hcases|]. apply Hchar.
    + apply scan_inv_start. intros Hnil.
      apply (noncollapse_nonempty fl weights Hsum).
      apply (f_equal (@length R)) in Hnil.
      rewrite normalized_length in Hnil. now destruct weights.
    + intros k. apply threshold_step; auto.
      * now apply offset_rounded.
      * now apply stride_nonneg.
  - split; [exact Hcases|].
    destruct Hchar as (k & Hk & Hall).
    + apply scan_inv_start. intros Hnil.
      apply (noncollapse_nonempty fl weights Hsum).
      apply (f_equal (@length R)) in Hnil.
      rewrite normalized_length in Hnil. now destruct weights.
    + intros j. apply threshold_step; auto.
      * now apply offset_rounded.
      * now apply stride_nonneg.
    + exists k. split; [exact Hk|]. intros (i & Hiw & Hip & Hreach).
      specialize (Hall i). rewrite normalized_length in Hall.
      specialize (Hall Hiw Hip). lra.
Qed.

(** ** The claims about resample_particles *)

(** C2: when the weights sum below 0.01 the input particles play no part:
    the call returns [generate_particles (len weights) [-1, 12, 0, 10]], one
    fresh particle per weight, each built from three samples of the
    generator and lying inside the default bounds. *)
Theorem resample_particles_collapse_reseeds (fl : R -> R)
    (particles : list particle) (kind : weight_kind) (weights : list R)
    (s : RandomState) :
  fsum fl weights < 0.01 ->
  rng_ok s ->
  exists out s',
    resample_particles fl particles kind weights s = Ok (out, s')
    /\ generate_particles (length weights) [-1; 12; 0; 10] s = Ok (out, s')
    /\ (forall others, resample_particles fl others kind weights s
                       = Ok (out, s'))
    /\ length out = length weights
    /\ (length weights = length particles -> length out = length particles)
    /\ (forall k, (k < length weights)%nat ->
          out !! k = Some (uniform_particle [-1; 12; 0; 10]
                             (unit_draw s (3 * k))
                             (unit_draw s (3 * k + 1))
                             (unit_draw s (3 * k + 2))))
    /\ Forall in_default_bounds out.
Proof.
  intros Hsum Hs.
  destruct (generate_particles_run (length weights) default_limits s)
    as (out & Hrun & Hlo & Hnth); [cbn; lia|].
  exists out, (skip (3 * length weights) s).
  split; [now rewrite resample_particles_collapse|].
  split; [exact Hrun|].
  split; [intros others; now rewrite resample_particles_collapse|].
  split; [exact Hlo|]. split; [congruence|]. split; [exact Hnth|].
  apply Forall_lookup. intros k p Hk.
  assert (Hlt : (k < length weights)%nat).
  { rewrite <- Hlo. eapply lookup_lt_Some; eauto. }
  rewrite (Hnth k Hlt) in Hk. injection Hk as <-.
  apply uniform_particle_in_bounds; apply Hs.
Qed.

(** C10: in the collapse branch the output has one particle per weight,
    whatever the length of the particle list: the call returns normally the
    fresh set [generate_particles (len weights) [-1, 12, 0, 10]]. *)
Theorem resample_particles_collapse_length (fl : R -> R)
    (particles : list particle) (kind : weight_kind) (weights : list R)
    (s : RandomState) :
  fsum fl weights < 0.01 ->
  exists out s',
    resample_particles fl particles kind weights s = Ok (out, s')
    /\ generate_particles (length weights) [-1; 12; 0; 10] s = Ok (out, s')
    /\ length out = length weights.
Proof.
  intros Hsum.
  destruct (generate_particles_run (length weights) default_limits s)
    as (out & Hrun & Hlo & _); [cbn; lia|].
  exists out, (skip (3 * length weights) s).
  rewrite resample_particles_collapse by exact Hsum. auto.
Qed.

(** What every return of the non-collapse path has: one draw, one output
    per particle, each output an input particle. *)
Lemma resample_particles_return (fl : R -> R) (particles : list particle)
    (kind : weight_kind) (weights : list R) (s s' : RandomState)
    (out : list particle) :
  0.01 <= fsum fl weights ->
  resample_particles fl particles kind weights s = Ok (out, s') ->
  kind = NumpyValues /\ particles <> []
  /\ resample_loop fl particles particles (stride fl particles)
       (offset fl particles s)
       (mkPointer (cumulative fl (normalized fl weights) 0) 0
          (drop 1 (normalized fl weights))) = Ok out
  /\ s' = skip 1 s
  /\ length out = length particles
  /\ Forall (fun p => p ∈ particles) out.
Proof.
  intros Hsum Hrun. destruct kind.
  { rewrite resample_particles_plain in Hrun by exact Hsum. discriminate. }
  destruct particles as [|q particles].
  { rewrite resample_particles_no_particle in Hrun by exact Hsum.
    discriminate. }
  rewrite resample_particles_scan in Hrun by (auto; discriminate).
  pose proof (resample_loop_cases fl (q :: particles) (q :: particles)
                (stride fl (q :: particles)) (offset fl (q :: particles) s)
                (mkPointer (cumulative fl (normalized fl weights) 0) 0
                   (drop 1 (normalized fl weights)))) as Hcases.
  destruct (resample_loop _ _ _ _ _ _) as [out'|e] eqn:Hloop;
    cbn [lift] in Hrun; [|discriminate].
  injection Hrun as <- <-. destruct Hcases. repeat split; auto.
Qed.

(** C8: in the non-collapse path, every particle of a set the call returns
    is one of the input particles. *)
Theorem resample_particles_closure (fl : R -> R) (particles : list particle)
    (kind : weight_kind) (weights : list R) (s s' : RandomState)
    (out : list particle) :
  0.01 <= fsum fl weights ->
  resample_particles fl particles kind weights s = Ok (out, s') ->
  Forall (fun p => p ∈ particles) out.
Proof.
  intros Hsum Hrun.
  now destruct (resample_particles_return _ _ _ _ _ _ _ Hsum Hrun)
    as (_ & _ & _ & _ & _ & Hall).
Qed.

(** X11: whatever the rounding, the weights and the lengths, when the
    non-collapse path returns, it returns one particle per input particle
    after a single draw, and the indices its output was read from never step
    back: the output lists the survivors in their input order. *)
Theorem resample_particles_keeps_order (fl : R -> R)
    (particles : list particle) (kind : weight_kind) (weights : list R)
    (s s' : RandomState) (out : list particle) :
  0.01 <= fsum fl weights ->
  resample_particles fl particles kind weights s = Ok (out, s') ->
  s' = skip 1 s
  /\ length out = length particles
  /\ exists idxs,
       Forall2 (fun i p => particles !! i = Some p) idxs out
       /\ nondecreasing idxs.
Proof.
  intros Hsum Hrun.
  destruct (resample_particles_return _ _ _ _ _ _ _ Hsum Hrun)
    as (_ & _ & Hloop & Hs & Hlen & _).
  split; [exact Hs|]. split; [exact Hlen|].
  destruct (resample_loop_indices _ _ _ _ _ _ _ Hloop) as (idxs & Hsel & _ & Hm).
  eauto.
Qed.

(** C1, where the code fails it: on a list of plain floats, which is what
    [weight_update] returns when there is no observation, the non-collapse
    path raises [TypeError] at [weights / normalizer] and resamples
    nothing. *)
Theorem resample_particles_plain_floats (fl : R -> R)
    (particles : list particle) (weights : list R) (s : RandomState) :
  0.01 <= fsum fl weights ->
  resample_particles fl particles PlainFloats weights s = Raise TypeError.
Proof. apply resample_particles_plain. Qed.

(** C3, as the code has it: the two lengths are never compared.  When they
    differ, the collapse path returns one fresh particle per weight.  On
    numpy values the non-collapse path raises [ZeroDivisionError] on an
    empty particle list; on a non-empty one it returns one input particle
    per particle when every threshold of the grid is reached by the
    cumulative weight at an index inside both sequences, and raises
    [IndexError] when some threshold is not. *)
Theorem resample_particles_length_mismatch (fl : R -> R)
    (particles : list particle) (weights : list R) (s : RandomState) :
  length weights <> length particles ->
  rounding_ok fl ->
  (forall kind, fsum fl weights < 0.01 ->
     exists out s',
       resample_particles fl particles kind weights s = Ok (out, s')
       /\ length out = length weights)
  /\ (0.01 <= fsum fl weights -> particles = [] ->
        resample_particles fl particles NumpyValues weights s
        = Raise ZeroDivisionError)
  /\ (0.01 <= fsum fl weights -> particles <> [] ->
        (forall k, (k < length particles)%nat ->
                   reached fl particles weights s k) ->
        exists out,
          resample_particles fl particles NumpyValues weights s
          = Ok (out, skip 1 s)
          /\ length out = length particles
          /\ Forall (fun p => p ∈ particles) out)
  /\ (0.01 <= fsum fl weights -> particles <> [] ->
        (exists k, (k < length particles)%nat
                   /\ ~ reached fl particles weights s k) ->
        resample_particles fl particles NumpyValues weights s
        = Raise IndexError).
Proof.
  intros Hne Hfl. repeat split.
  - intros kind Hsum.
    destruct (generate_particles_run (length weights) default_limits s)
      as (out & Hrun & Hlo & _); [cbn; lia|].
    exists out, (skip (3 * length weights) s).
    rewrite resample_particles_collapse by exact Hsum. auto.
  - intros Hsum ->. now apply resample_particles_no_particle.
  - intros Hsum Hps Hall.
    pose proof (resample_particles_char fl particles weights s Hfl Hsum Hps)
      as Hchar.
    destruct (resample_particles fl particles NumpyValues weights s)
      as [[out s']|e] eqn:Hrun.
    + destruct (resample_particles_return _ _ _ _ _ _ _ Hsum Hrun)
        as (_ & _ & _ & -> & Hlen & Hin). eauto.
    + destruct Hchar as (_ & k & Hk & Hno). destruct Hno. now apply Hall.
  - intros Hsum Hps (k & Hk & Hno).
    pose proof (resample_particles_char fl particles weights s Hfl Hsum Hps)
      as Hchar.
    destruct (resample_particles fl particles NumpyValues weights s)
      as [[out s']|e] eqn:Hrun.
    + destruct Hchar as (_ & _ & Hsel). destruct Hno.
      destruct (Hsel k Hk) as (i & p & _ & Hp & (Hi & Hreach & _)).
      exists i. rewrite normalized_length in Hi.
      split; [exact Hi|]. split; [|exact Hreach].
      eapply lookup_lt_Some; eauto.
    + destruct Hchar as (-> & _). reflexivity.
Qed.

(** ** The selection *)

Lemma normalized_rounded (fl : R -> R) (weights : list R) :
  rounding_ok fl -> Forall (fun w => fl w = w) (normalized fl weights).
Proof.
  intros (_ & Hidem & _). unfold normalized. apply Forall_forall.
  intros w Hw. apply list_elem_of_fmap in Hw as (w' & -> & _). apply Hidem.
Qed.

Lemma cumulative_rounded (fl : R -> R) (ws : list R) (i : nat) :
  rounding_ok fl -> Forall (fun w => fl w = w) ws -> (i < length ws)%nat ->
  fl (cumulative fl ws i) = cumulative fl ws i.
Proof.
  intros (_ & Hidem & _) Hall Hi.
  destruct (lookup_lt_is_Some_2 ws i Hi) as [w Hw]. destruct i as [|i].
  - rewrite (cumulative_0 fl ws w Hw). rewrite Forall_forall in Hall.
    apply Hall. eapply list_elem_of_lookup_2; eauto.
  - rewrite (cumulative_S fl ws i w Hw). apply Hidem.
Qed.

(** A selected index carries a positive weight when the threshold is
    positive. *)
Lemma selected_positive (fl : R -> R) (ws : list R) (u : R) (i : nat) :
  rounding_ok fl -> Forall (fun w => fl w = w) ws ->
  0 < u -> selected fl ws u i -> exists w, ws !! i = Some w /\ 0 < w.
Proof.
  intros Hfl Hall Hu (Hi & Hreach & Hlow).
  destruct (lookup_lt_is_Some_2 ws i Hi) as [w Hw]. exists w.
  split; [exact Hw|]. destruct i as [|i].
  - rewrite (cumulative_0 fl ws w Hw) in Hreach. lra.
  - rewrite (cumulative_S fl ws i w Hw) in Hreach.
    assert (Hbelow : cumulative fl ws i < u) by (apply Hlow; lia).
    destruct (Rlt_le_dec 0 w) as [Hpos|Hneg]; [exact Hpos|].
    pose proof (cumulative_rounded fl ws i Hfl Hall ltac:(lia)) as Hr.
    destruct Hfl as (Hmono & _).
    assert (fl (cumulative fl ws i + w) <= fl (cumulative fl ws i))
      by (apply Hmono; lra).
    lra.
Qed.

(** X12: in the non-collapse path, for a rounding that keeps the order and
    an offset that is not 0, every particle of a set the call returns was
    read from an index whose weight is strictly positive: a particle of
    weight 0 is never drawn. *)
Theorem resample_particles_positive_weight (fl : R -> R)
    (particles : list particle) (kind : weight_kind) (weights : list R)
    (s s' : RandomState) (out : list particle) :
  rounding_ok fl ->
  0.01 <= fsum fl weights ->
  0 < offset fl particles s ->
  resample_particles fl particles kind weights s = Ok (out, s') ->
  forall k, (k < length particles)%nat ->
    exists i p w, out !! k = Some p /\ particles !! i = Some p
                  /\ weights !! i = Some w /\ 0 < w.
Proof.
  intros Hfl Hsum Hoff Hrun k Hk.
  destruct (resample_particles_return _ _ _ _ _ _ _ Hsum Hrun)
    as (-> & Hps & _).
  pose proof (resample_particles_char fl particles weights s Hfl Hsum Hps)
    as Hchar.
  rewrite Hrun in Hchar. destruct Hchar as (_ & _ & Hsel).
  destruct (Hsel k Hk) as (i & p & Hout & Hin & Hi).
  assert (Hu : 0 < threshold fl (stride fl particles)
                     (offset fl particles s) k).
  { pose proof (threshold_above fl (stride fl particles)
                  (offset fl particles s) k Hfl
                  (offset_rounded fl particles s Hfl)
                  (stride_nonneg fl particles Hfl Hps)).
    lra. }
  destruct (selected_positive fl _ _ _ Hfl (normalized_rounded fl weights Hfl)
              Hu Hi) as (nw & Hnw & Hpos).
  destruct (lookup_lt_is_Some_2 weights i) as [w Hw].
  { destruct Hi as [Hi _]. now rewrite normalized_length in Hi. }
  exists i, p, w. repeat split; auto.
  rewrite (normalized_lookup fl weights i w Hw) in Hnw. injection Hnw as <-.
  destruct (Rlt_le_dec 0 w) as [Hw0|Hw0]; [exact Hw0|].
  destruct Hfl as (Hmono & _ & H0 & _).
  assert (fl (w / fsum fl weights) <= fl 0).
  { apply Hmono. unfold Rdiv.
    assert (0 < / fsum fl weights) by (apply Rinv_0_lt_compat; lra). nra. }
  lra.
Qed.

(** X19: in the non-collapse path, for a rounding that keeps the order, a
    set the call returns is the systematic selection: position [k] holds the
    particle at the smallest index whose cumulative normalized weight
    reaches threshold [k] of the grid, the offset gone [k] times through
    [u = u + step]. *)
Theorem resample_particles_selection (fl : R -> R)
    (particles : list particle) (kind : weight_kind) (weights : list R)
    (s s' : RandomState) (out : list particle) :
  rounding_ok fl ->
  0.01 <= fsum fl weights ->
  resample_particles fl particles kind weights s = Ok (out, s') ->
  forall k, (k < length particles)%nat ->
    exists i p, out !! k = Some p /\ particles !! i = Some p
      /\ selected fl (normalized fl weights)
           (threshold fl (stride fl particles) (offset fl particles s) k) i.
Proof.
  intros Hfl Hsum Hrun.
  destruct (resample_particles_return _ _ _ _ _ _ _ Hsum Hrun)
    as (-> & Hps & _).
  pose proof (resample_particles_char fl particles weights s Hfl Hsum Hps)
    as Hchar.
  rewrite Hrun in Hchar. now destruct Hchar as (_ & _ & Hsel).
Qed.



(** ** The filter loop *)

Lemma collect_length {A B} (f : A -> result B) (l : list A) (bs : list B) :
  collect f l = Ok bs -> length bs = length l.
Proof.
  revert bs. induction l as [|a l IH]; intros bs Hrun.
  - injection Hrun as <-. reflexivity.
  - cbn in Hrun. destruct (f a) as [b|e]; cbn in Hrun; [|discriminate].
    destruct (collect f l) as [bs'|e]; cbn in Hrun; [|discriminate].
    injection Hrun as <-. cbn. now rewrite (IH bs').
Qed.

(** A return of [sample_motion] has one particle per input particle and has
    made three draws for each. *)
Lemma sample_motion_return (odometry : Odometry.delta) (ps out : list particle)
    (s s' : RandomState) :
  sample_motion odometry ps s = Ok (out, s') ->
  length out = length ps /\ s' = skip (3 * length ps) s.
Proof.
  intros Hrun. destruct ps as [|p ps].
  { cbn in Hrun. injection Hrun as <- <-. now rewrite skip_0. }
  destruct (nonneg_sigmas_dec (sigmas_of odometry)) as [Hsg|Hneg].
  - destruct (sample_motion_run odometry (p :: ps) s Hsg)
      as (out' & Hrun' & Hlen & _).
    rewrite Hrun' in Hrun. injection Hrun as <- <-. auto.
  - rewrite sample_motion_raise in Hrun by (auto; discriminate).
    discriminate.
Qed.

(** A return of [resample_particles] on as many weights as particles has
    one particle per input particle, in the collapse path and in the other,
    and the generator only moves forward. *)
Lemma resample_particles_return_length (fl : R -> R)
    (particles : list particle) (kind : weight_kind) (weights : list R)
    (s s' : RandomState) (out : list particle) :
  length weights = length particles ->
  resample_particles fl particles kind weights s = Ok (out, s') ->
  length out = length particles
  /\ (s' = skip (3 * length particles) s \/ s' = skip 1 s).
Proof.
  intros Hlen Hrun.
  destruct (Rlt_le_dec (fsum fl weights) 0.01) as [Hsum|Hsum].
  - rewrite resample_particles_collapse in Hrun by exact Hsum.
    destruct (generate_particles_run (length weights) default_limits s)
      as (out' & Hrun' & Hlo & _); [cbn; lia|].
    rewrite Hrun' in Hrun. injection Hrun as <- <-.
    split; [congruence|]. left. now rewrite Hlen.
  - destruct (resample_particles_return _ _ _ _ _ _ _ Hsum Hrun)
      as (_ & _ & _ & Hs & Hlo & _). auto.
Qed.

(** What a return of one pass is made of. *)
Lemma filter_step_return (fl : R -> R) (odometry : Odometry.delta)
    (sd : Sensor.t) (lms : gmap Z (R * R)) (ps out : list particle)
    (s s' : RandomState) :
  filter_step fl odometry sd lms ps s = Ok (out, s') ->
  exists moved_ps ws,
    sample_motion odometry ps s = Ok (moved_ps, skip (3 * length ps) s)
    /\ length moved_ps = length ps
    /\ weight_update sd moved_ps lms = Ok ws
    /\ length ws = length moved_ps
    /\ resample_particles fl moved_ps (weights_kind sd) ws
         (skip (3 * length ps) s) = Ok (out, s').
Proof.
  unfold filter_step. unfold bind at 1. intros Hrun.
  destruct (sample_motion odometry ps s) as [[moved_ps s1]|e] eqn:Hmove;
    [|discriminate].
  destruct (sample_motion_return _ _ _ _ _ Hmove) as [Hlen ->].
  unfold bind at 1 in Hrun.
  destruct (weight_update sd moved_ps lms) as [ws|e] eqn:Hws;
    cbn [lift] in Hrun; [|discriminate].
  exists moved_ps, ws. repeat split; auto.
  unfold weight_update in Hws. now apply collect_length in Hws.
Qed.

Lemma filter_step_return_length (fl : R -> R) (odometry : Odometry.delta)
    (sd : Sensor.t) (lms : gmap Z (R * R)) (ps out : list particle)
    (s s' : RandomState) :
  filter_step fl odometry sd lms ps s = Ok (out, s') ->
  length out = length ps.
Proof.
  intros Hrun.
  destruct (filter_step_return _ _ _ _ _ _ _ _ Hrun)
    as (moved_ps & ws & _ & Hlm & _ & Hlw & Hres).
  destruct (resample_particles_return_length _ _ _ _ _ _ _ Hlw Hres)
    as [Hlo _].
  congruence.
Qed.

Lemma filter_steps_return_length (fl : R -> R)
    (readings : list (Odometry.delta * Sensor.t)) (lms : gmap Z (R * R))
    (ps out : list particle) (s s' : RandomState) :
  filter_steps fl readings lms ps s = Ok (out, s') ->
  length out = length ps.
Proof.
  revert ps s. induction readings as [|[odometry sd] readings IH];
    intros ps s Hrun.
  - cbn in Hrun. injection Hrun as <- <-. reflexivity.
  - cbn [filter_steps] in Hrun. unfold bind at 1 in Hrun.
    destruct (plot ps lms) as [drawn|e]; cbn [lift] in Hrun; [|discriminate].
    unfold bind at 1 in Hrun.
    destruct (filter_step fl odometry sd lms ps s) as [[ps' s1]|e] eqn:Hstep;
      [|discriminate].
    apply filter_step_return_length in Hstep. apply IH in Hrun. congruence.
Qed.

(** C7, as the code keeps it: [sample_motion] returns as many particles as
    it was given when none of the three noise deviations is negative; on as
    many weights as particles [resample_particles] returns as many particles
    as it was given in the collapse path, and in the other path whenever it
    returns; so every pass of the filter loop that returns, and every run of
    passes that returns, leaves the number of particles as it was. *)
Theorem cardinality_preserved (fl : R -> R) (odometry : Odometry.delta)
    (sd : Sensor.t) (lms : gmap Z (R * R))
    (readings : list (Odometry.delta * Sensor.t))
    (particles : list particle) (kind : weight_kind) (weights : list R)
    (s : RandomState) :
  nonneg_sigmas (sigmas_of odometry) ->
  length weights = length particles ->
  (exists out s',
     sample_motion odometry particles s = Ok (out, s')
     /\ length out = length particles)
  /\ (fsum fl weights < 0.01 ->
      exists out s',
        resample_particles fl particles kind weights s = Ok (out, s')
        /\ length out = length particles)
  /\ (forall out s',
        resample_particles fl particles kind weights s = Ok (out, s') ->
        length out = length particles)
  /\ (forall out s',
        filter_step fl odometry sd lms particles s = Ok (out, s') ->
        length out = length particles)
  /\ (forall out s',
        filter_steps fl readings lms particles s = Ok (out, s') ->
        length out = length particles).
Proof.
  intros Hsg Hlen. split; [|split; [|split; [|split]]].
  - destruct (sample_motion_run odometry particles s Hsg)
      as (out & Hrun & Hlo & _). eauto.
  - intros Hsum.
    destruct (generate_particles_run (length weights) default_limits s)
      as (out & Hrun & Hlo & _); [cbn; lia|].
    exists out, (skip (3 * length weights) s).
    rewrite resample_particles_collapse by exact Hsum.
    split; [exact Hrun|congruence].
  - intros out s' Hrun.
    now destruct (resample_particles_return_length _ _ _ _ _ _ _ Hlen Hrun).
  - intros out s'. apply filter_step_return_length.
  - intros out s'. apply filter_steps_return_length.
Qed.

(** X17: each particle one pass of the loop returns is one of the particles
    [sample_motion] predicted in that pass, or, after a collapse of the
    weights, a fresh particle inside the default bounds; and the pass
    returns as many as it was given. *)
Theorem filter_step_cardinality (fl : R -> R) (odometry : Odometry.delta)
    (sd : Sensor.t) (lms : gmap Z (R * R)) (ps out : list particle)
    (s s' : RandomState) :
  rng_ok s ->
  filter_step fl odometry sd lms ps s = Ok (out, s') ->
  exists moved_ps,
    sample_motion odometry ps s = Ok (moved_ps, skip (3 * length ps) s)
    /\ length out = length ps
    /\ (Forall (fun p => p ∈ moved_ps) out \/ Forall in_default_bounds out).
Proof.
  intros Hs Hrun.
  destruct (filter_step_return _ _ _ _ _ _ _ _ Hrun)
    as (moved_ps & ws & Hmove & Hlm & _ & Hlw & Hres).
  exists moved_ps. split; [exact Hmove|].
  split; [now apply filter_step_return_length in Hrun|].
  destruct (Rlt_le_dec (fsum fl ws) 0.01) as [Hsum|Hsum].
  - right. rewrite resample_particles_collapse in Hres by exact Hsum.
    destruct (generate_particles_run (length ws) default_limits
                (skip (3 * length ps) s))
      as (out' & Hrun' & Hlo & Hnth); [cbn; lia|].
    rewrite Hrun' in Hres. injection Hres as <- <-.
    apply Forall_lookup. intros k p Hk.
    assert (Hlt : (k < length ws)%nat).
    { rewrite <- Hlo. eapply lookup_lt_Some; eauto. }
    rewrite (Hnth k Hlt) in Hk. injection Hk as <-.
    apply uniform_particle_in_bounds; apply Hs.
  - left.
    now destruct (resample_particles_return _ _ _ _ _ _ _ Hsum Hres)
      as (_ & _ & _ & _ & _ & Hin).
Qed.

Lemma weight_update_no_ids (sd : Sensor.t) (ps : list particle)
    (lms : gmap Z (R * R)) :
  Sensor.id sd = [] -> weight_update sd ps lms = Ok (replicate (length ps) 1).
Proof.
  intros Hid. unfold weight_update.
  induction ps as [|p ps IH]; [reflexivity|].
  cbn. unfold particle_weight at 1. rewrite Hid. cbn. now rewrite IH.
Qed.

Lemma fsum_ones (fl : R -> R) (n : nat) :
  rounding_ok fl -> (0 < n)%nat -> 1 <= fsum fl (replicate n 1).
Proof.
  intros (Hmono & _ & _ & H1) Hn. destruct n as [|n]; [lia|].
  unfold fsum. cbn [replicate fold_left].
  replace (0 + 1) with 1 by lra. rewrite H1.
  assert (Hacc : forall acc, 1 <= acc ->
            1 <= fold_left (fun a w => fl (a + w)) (replicate n 1) acc).
  { induction n as [|n IH]; intros acc Hge; [exact Hge|].
    cbn [replicate fold_left]. apply IH; [lia|].
    rewrite <- H1. apply Hmono. lra. }
  apply Hacc. lra.
Qed.

Lemma filter_step_plain (fl : R -> R) (odometry : Odometry.delta)
    (sd : Sensor.t) (lms : gmap Z (R * R)) (ps : list particle)
    (s : RandomState) :
  rounding_ok fl ->
  nonneg_sigmas (sigmas_of odometry) ->
  Sensor.id sd = [] ->
  ps <> [] ->
  filter_step fl odometry sd lms ps s = Raise TypeError.
Proof.
  intros Hfl Hsg Hid Hps.
  destruct (sample_motion_run odometry ps s Hsg)
    as (moved_ps & Hmove & Hlen & _).
  unfold filter_step. unfold bind at 1. rewrite Hmove.
  unfold bind at 1. rewrite (weight_update_no_ids sd moved_ps lms Hid).
  cbn [lift]. unfold weights_kind. rewrite Hid.
  apply resample_particles_plain.
  assert (Hpos : (0 < length moved_ps)%nat).
  { rewrite Hlen. destruct ps; [contradiction|cbn; lia]. }
  pose proof (fsum_ones fl (length moved_ps) Hfl Hpos). lra.
Qed.

(** X22: a pass on a reading without observation fails as soon as there is a
    particle: [weight_update] hands plain floats to [resample_particles],
    which raises [TypeError] (for deviations numpy accepts, and a rounding
    that keeps the order and leaves 1 as it is). *)
Theorem filter_step_no_observation (fl : R -> R) (odometry : Odometry.delta)
    (sd : Sensor.t) (lms : gmap Z (R * R)) (ps : list particle)
    (s : RandomState) :
  rounding_ok fl ->
  nonneg_sigmas (sigmas_of odometry) ->
  Sensor.id sd = [] ->
  ps <> [] ->
  filter_step fl odometry sd lms ps s = Raise TypeError.
Proof. apply filter_step_plain. Qed.

Lemma plot_raises (ps : list particle) (lms : gmap Z (R * R)) :
  ~ (forall k, is_Some (lms !! k) <-> (1 <= k <= Z.of_nat (size lms))%Z) ->
  plot ps lms = Raise KeyError.
Proof.
  intros Hno. unfold plot.
  destruct (landmark_series_cases lms (seq 0 (size lms)) [] [])
    as [(Hall & Hrun)|(Hex & Hrun)]; rewrite Hrun; cbn [rbind];
    [|reflexivity].
  destruct Hno.
  assert (Hin : forall k, (1 <= k <= Z.of_nat (size lms))%Z ->
                          is_Some (lms !! k)).
  { intros k Hk. rewrite Forall_forall in Hall.
    replace k with (Z.of_nat (Z.to_nat (k - 1)) + 1)%Z by lia.
    apply Hall. apply elem_of_seq. lia. }
  intros k. split; [now apply consecutive_keys|apply Hin].
Qed.

(** X21: the loop of [main] plots before it filters: when the ids of the
    landmark map are not the consecutive integers from 1, the first pass
    raises [KeyError] before any draw. *)
Theorem filter_steps_landmark_ids (fl : R -> R)
    (reading : Odometry.delta * Sensor.t)
    (readings : list (Odometry.delta * Sensor.t)) (lms : gmap Z (R * R))
    (ps : list particle) (s : RandomState) :
  ~ (forall k, is_Some (lms !! k) <-> (1 <= k <= Z.of_nat (size lms))%Z) ->
  filter_steps fl (reading :: readings) lms ps s = Raise KeyError.
Proof.
  intros Hno. destruct reading as [odometry sd].
  cbn [filter_steps]. unfold bind at 1.
  now rewrite (plot_raises ps lms Hno).
Qed.

(** X18: whatever the readings, the landmark map and the rounding, when the
    loop of [main] gets through its passes (plot, predict, weigh, resample)
    it ends with as many particles as it started with. *)
Theorem filter_steps_cardinality (fl : R -> R)
    (readings : list (Odometry.delta * Sensor.t)) (lms : gmap Z (R * R))
    (ps out : list particle) (s s' : RandomState) :
  filter_steps fl readings lms ps s = Ok (out, s') ->
  length out = length ps.
Proof. apply filter_steps_return_length. Qed.

(** * Runs of resample_particles and of the filter loop *)

Ltac run_exact :=
  repeat (progress
            (unfold no_rounding;
             cbn -[Rlt_dec Rgt_dec Rle_dec INR Rdiv Rplus Rmult Rminus Ropp
                   Rabs cos sin sqrt exp PI];
             simpl INR; decide_reals)).

Lemma fsum_1_3 : 0.01 <= fsum no_rounding [1; 3].
Proof. unfold fsum, no_rounding. cbn. lra. Qed.

Lemma fsum_1_1 : 0.01 <= fsum no_rounding [1; 1].
Proof. unfold fsum, no_rounding. cbn. lra. Qed.

Lemma fsum_1 : 0.01 <= fsum no_rounding [1].
Proof. unfold fsum, no_rounding. cbn. lra. Qed.

Lemma fsum_0_0 : fsum no_rounding [0; 0] < 0.01.
Proof. unfold fsum, no_rounding. cbn. lra. Qed.

(** Weights 1 and 3 over two particles, offset 1/4: the grid 1/4, 3/4 on
    the cumulative weights 1/4, 1 selects index 0, then index 1.  Every
    number of this run is one a double holds exactly. *)
Example resample_particles_two :
  resample_particles no_rounding [p_a; p_b] NumpyValues [1; 3] demo_state
  = Ok ([p_a; p_b], skip 1 demo_state).
Proof. unfold resample_particles, fsum. run_exact. reflexivity. Qed.

(** Weights 3 and 1: the grid 1/4, 3/4 on the cumulative weights 3/4, 1
    selects index 0 twice. *)
Example resample_particles_heavy_first :
  resample_particles no_rounding [p_a; p_b] NumpyValues [3; 1] demo_state
  = Ok ([p_a; p_a], skip 1 demo_state).
Proof. unfold resample_particles, fsum. run_exact. reflexivity. Qed.

(** More weights than particles, the weight on the last index: the scan
    selects index 2 and [particles[2]] raises. *)
Example resample_particles_index_error :
  resample_particles no_rounding [p_a; p_b] NumpyValues [0; 0; 1] demo_state
  = Raise IndexError.
Proof. unfold resample_particles, fsum. run_exact. reflexivity. Qed.

(** C1 on two unit weights held as plain floats. *)
Lemma resample_particles_plain_floats_witness :
  0.01 <= fsum no_rounding [1; 1]
  /\ resample_particles no_rounding [p_a; p_b] PlainFloats [1; 1] demo_state
     = Raise TypeError.
Proof.
  split; [exact fsum_1_1|].
  exact (resample_particles_plain_floats no_rounding [p_a; p_b] [1; 1]
           demo_state fsum_1_1).
Defined.

(** C2 on two zero weights. *)
Lemma resample_particles_collapse_reseeds_witness :
  (fsum no_rounding [0; 0] < 0.01 /\ rng_ok demo_state)
  /\ exists out s',
       resample_particles no_rounding [p_a; p_b] NumpyValues [0; 0] demo_state
       = Ok (out, s')
       /\ length out = 2%nat
       /\ Forall in_default_bounds out.
Proof.
  split; [split; [exact fsum_0_0|exact demo_state_ok]|].
  destruct (resample_particles_collapse_reseeds no_rounding [p_a; p_b]
              NumpyValues [0; 0] demo_state fsum_0_0 demo_state_ok)
    as (out & s' & Hrun & _ & _ & Hlen & _ & _ & Hin).
  exists out, s'. split; [exact Hrun|]. split; [exact Hlen|exact Hin].
Defined.

(** C10 on two zero weights and a single particle. *)
Lemma resample_particles_collapse_length_witness :
  fsum no_rounding [0; 0] < 0.01
  /\ exists out s',
       resample_particles no_rounding [p_a] PlainFloats [0; 0] demo_state
       = Ok (out, s')
       /\ length out = 2%nat.
Proof.
  split; [exact fsum_0_0|].
  destruct (resample_particles_collapse_length no_rounding [p_a] PlainFloats
              [0; 0] demo_state fsum_0_0)
    as (out & s' & Hrun & _ & Hlen).
  exists out, s'. split; [exact Hrun|exact Hlen].
Defined.

(** C8 on weights 1 and 3 over [p_a], [p_b]. *)
Lemma resample_particles_closure_witness :
  (0.01 <= fsum no_rounding [1; 3]
   /\ resample_particles no_rounding [p_a; p_b] NumpyValues [1; 3] demo_state
      = Ok ([p_a; p_b], skip 1 demo_state))
  /\ Forall (fun p => p ∈ [p_a; p_b]) [p_a; p_b].
Proof.
  split; [split; [exact fsum_1_3|exact resample_particles_two]|].
  exact (resample_particles_closure no_rounding [p_a; p_b] NumpyValues [1; 3]
           demo_state (skip 1 demo_state) [p_a; p_b]
           fsum_1_3 resample_particles_two).
Defined.

(** C3 refuted: one weight against two particles, and the call returns the
    first particle twice; two weights against one particle in the collapse
    path, and the call returns two fresh particles.  Every number of these
    runs is one a double holds exactly. *)
Lemma resample_particles_mismatch_returns :
  length [1] <> length [p_a; p_b]
  /\ resample_particles no_rounding [p_a; p_b] NumpyValues [1] demo_state
     = Ok ([p_a; p_a], skip 1 demo_state)
  /\ length [0; 0] <> length [p_a]
  /\ resample_particles no_rounding [p_a] NumpyValues [0; 0] demo_state
     = Ok ([uniform_particle default_limits (1 / 2) (1 / 2) (1 / 2);
            uniform_particle default_limits (1 / 2) (1 / 2) (1 / 2)],
           skip 6 demo_state).
Proof.
  split; [cbn; lia|]. split.
  { unfold resample_particles, fsum. run_exact. reflexivity. }
  split; [cbn; lia|].
  unfold resample_particles, fsum. run_exact. reflexivity.
Qed.

Lemma mismatch_1_2 : length [1] <> length [p_a; p_b].
Proof. cbn. lia. Qed.

Lemma two_particles_nonempty : [p_a; p_b] <> [].
Proof. discriminate. Qed.

(** C3 as amended, on one weight against two particles: the two thresholds
    1/4 and 3/4 are reached at index 0, where the cumulative weight is 1. *)
Lemma resample_particles_length_mismatch_witness :
  (length [1] <> length [p_a; p_b] /\ rounding_ok no_rounding)
  /\ exists out,
       resample_particles no_rounding [p_a; p_b] NumpyValues [1] demo_state
       = Ok (out, skip 1 demo_state)
       /\ length out = 2%nat
       /\ Forall (fun p => p ∈ [p_a; p_b]) out.
Proof.
  split; [split; [exact mismatch_1_2|exact no_rounding_ok]|].
  destruct (resample_particles_length_mismatch no_rounding [p_a; p_b] [1]
              demo_state mismatch_1_2 no_rounding_ok) as (_ & _ & Hin & _).
  apply (Hin fsum_1 two_particles_nonempty).
  intros k Hk. exists 0%nat. split; [cbn; lia|]. split; [cbn; lia|].
  destruct k as [|[|k]]; [| |cbn in Hk; lia];
    unfold normalized, cumulative, offset, stride, fsum, no_rounding;
    cbn; lra.
Defined.

(** X11 on weights 1 and 3 over [p_a], [p_b]. *)
Lemma resample_particles_keeps_order_witness :
  (0.01 <= fsum no_rounding [1; 3]
   /\ resample_particles no_rounding [p_a; p_b] NumpyValues [1; 3] demo_state
      = Ok ([p_a; p_b], skip 1 demo_state))
  /\ exists idxs,
       Forall2 (fun i p => [p_a; p_b] !! i = Some p) idxs [p_a; p_b]
       /\ nondecreasing idxs.
Proof.
  split; [split; [exact fsum_1_3|exact resample_particles_two]|].
  exact (proj2 (proj2 (resample_particles_keeps_order no_rounding [p_a; p_b]
                         NumpyValues [1; 3] demo_state (skip 1 demo_state)
                         [p_a; p_b] fsum_1_3 resample_particles_two))).
Defined.

Lemma demo_offset_positive : 0 < offset no_rounding [p_a; p_b] demo_state.
Proof. unfold offset, stride, no_rounding. cbn. lra. Qed.

(** X12 on weights 1 and 3 over [p_a], [p_b]. *)
Lemma resample_particles_positive_weight_witness :
  (rounding_ok no_rounding
   /\ 0.01 <= fsum no_rounding [1; 3]
   /\ 0 < offset no_rounding [p_a; p_b] demo_state
   /\ resample_particles no_rounding [p_a; p_b] NumpyValues [1; 3] demo_state
      = Ok ([p_a; p_b], skip 1 demo_state))
  /\ exists i p w, [p_a; p_b] !! 1%nat = Some p /\ [p_a; p_b] !! i = Some p
                   /\ [1; 3] !! i = Some w /\ 0 < w.
Proof.
  split.
  { split; [exact no_rounding_ok|]. split; [exact fsum_1_3|].
    split; [exact demo_offset_positive|exact resample_particles_two]. }
  apply (resample_particles_positive_weight no_rounding [p_a; p_b]
           NumpyValues [1; 3] demo_state (skip 1 demo_state) [p_a; p_b]
           no_rounding_ok fsum_1_3 demo_offset_positive
           resample_particles_two 1%nat).
  cbn. lia.
Defined.

(** X19 on weights 1 and 3 over [p_a], [p_b]. *)
Lemma resample_particles_selection_witness :
  (rounding_ok no_rounding
   /\ 0.01 <= fsum no_rounding [1; 3]
   /\ resample_particles no_rounding [p_a; p_b] NumpyValues [1; 3] demo_state
      = Ok ([p_a; p_b], skip 1 demo_state))
  /\ exists i p,
       [p_a; p_b] !! 1%nat = Some p /\ [p_a; p_b] !! i = Some p
       /\ selected no_rounding (normalized no_rounding [1; 3])
            (threshold no_rounding (stride no_rounding [p_a; p_b])
               (offset no_rounding [p_a; p_b] demo_state) 1) i.
Proof.
  split.
  { split; [exact no_rounding_ok|]. split; [exact fsum_1_3|].
    exact resample_particles_two. }
  apply (resample_particles_selection no_rounding [p_a; p_b] NumpyValues
           [1; 3] demo_state (skip 1 demo_state) [p_a; p_b]
           no_rounding_ok fsum_1_3 resample_particles_two 1%nat).
  cbn. lia.
Defined.


(** C7 as amended, one unit forward over two particles. *)
Lemma cardinality_preserved_witness :
  (nonneg_sigmas (sigmas_of forward) /\ length [1; 3] = length [p_a; p_b])
  /\ (exists out s',
        sample_motion forward [p_a; p_b] demo_state = Ok (out, s')
        /\ length out = 2%nat)
  /\ (forall out s',
        resample_particles no_rounding [p_a; p_b] NumpyValues [1; 3]
          demo_state = Ok (out, s') ->
        length out = 2%nat).
Proof.
  split; [split; [exact forward_sigmas|reflexivity]|].
  destruct (cardinality_preserved no_rounding forward demo_sensor
              demo_landmarks [] [p_a; p_b] NumpyValues [1; 3] demo_state
              forward_sigmas eq_refl)
    as (Hmove & _ & Hres & _).
  split; [exact Hmove|exact Hres].
Defined.

(** C7 refuted: one unit backward over two particles, and no particle set
    comes back; two unit weights held as plain floats over two particles,
    and no particle set comes back; a pass on a reading without
    observation, and no particle set comes back. *)
Lemma cardinality_lost :
  (~ exists out s',
       sample_motion backward [p_a; p_b] demo_state = Ok (out, s')
       /\ length out = 2%nat)
  /\ resample_particles no_rounding [p_a; p_b] PlainFloats [1; 1] demo_state
     = Raise TypeError
  /\ filter_step no_rounding forward empty_sensor demo_landmarks [p_a; p_b]
       demo_state
     = Raise TypeError.
Proof.
  split; [|split].
  - intros (out & s' & Hrun & _).
    rewrite sample_motion_raise in Hrun;
      [discriminate|exact backward_sigmas|discriminate].
  - apply resample_particles_plain. exact fsum_1_1.
  - apply filter_step_plain;
      [exact no_rounding_ok|exact forward_sigmas|reflexivity|discriminate].
Qed.

(** X22 on one particle and the reading without observation. *)
Lemma filter_step_no_observation_witness :
  (rounding_ok no_rounding
   /\ nonneg_sigmas (sigmas_of forward)
   /\ Sensor.id empty_sensor = []
   /\ [p_a] <> [])
  /\ filter_step no_rounding forward empty_sensor demo_landmarks [p_a]
       demo_state
     = Raise TypeError.
Proof.
  split.
  { split; [exact no_rounding_ok|]. split; [exact forward_sigmas|].
    split; [reflexivity|exact one_particle]. }
  exact (filter_step_no_observation no_rounding forward empty_sensor
           demo_landmarks [p_a] demo_state no_rounding_ok forward_sigmas
           eq_refl one_particle).
Defined.

Lemma far_landmark_ids :
  ~ (forall k, is_Some (far_landmark !! k)
               <-> (1 <= k <= Z.of_nat (size far_landmark))%Z).
Proof.
  intros Hcons. unfold far_landmark in Hcons.
  rewrite map_size_singleton in Hcons.
  destruct (proj2 (Hcons 1%Z)) as [lm Hlm]; [lia|].
  rewrite lookup_singleton_ne in Hlm by lia. discriminate.
Qed.

(** X21 on a map whose only landmark is number 2. *)
Lemma filter_steps_landmark_ids_witness :
  ~ (forall k, is_Some (far_landmark !! k)
               <-> (1 <= k <= Z.of_nat (size far_landmark))%Z)
  /\ filter_steps no_rounding [(forward, demo_sensor)] far_landmark
       [p_a; p_b] demo_state
     = Raise KeyError.
Proof.
  split; [exact far_landmark_ids|].
  exact (filter_steps_landmark_ids no_rounding (forward, demo_sensor) []
           far_landmark [p_a; p_b] demo_state far_landmark_ids).
Defined.

(** *** A pass that returns

    Two particles at distance 5 from landmark 1, a reading that observes it
    at range 5 and reports no motion: both weights are the peak of the
    density, the grid 1/4, 3/4 on the cumulative weights 1/2, 1 selects
    index 0, then index 1. *)

Lemma sample_motion_still (ps : list particle) (s : RandomState) :
  sample_motion (Odometry.mk 0 0 0) ps s = Ok (ps, skip (3 * length ps) s).
Proof.
  destruct (sample_motion_run (Odometry.mk 0 0 0) ps s)
    as (out & Hrun & Hlo & Hnth).
  { apply nonneg_sigmas_forward_motion. cbn. lra. }
  rewrite Hrun. do 2 f_equal. apply list_eq. intros k.
  destruct (ps !! k) as [p|] eqn:Hp.
  - rewrite (Hnth k p Hp). now rewrite moved_still.
  - apply lookup_ge_None. rewrite Hlo. now apply lookup_ge_None.
Qed.

Lemma peak_weight_large : 0.005 <= 1 * norm_pdf 5 5 sigma_r.
Proof.
  unfold norm_pdf, sigma_r.
  replace (- ((5 - 5) / 0.2) ^ 2 / 2) with 0 by (unfold Rdiv; lra).
  rewrite exp_0.
  assert (Hs : 0 < sqrt (2 * PI) <= 3).
  { split; [apply sqrt_lt_R0; pose proof PI_RGT_0; lra|].
    rewrite <- (sqrt_pow2 3) by lra. apply sqrt_le_1_alt.
    pose proof PI_4. lra. }
  assert (Hq : 1 / 3 <= 1 / sqrt (2 * PI)).
  { unfold Rdiv. rewrite !Rmult_1_l. apply Rinv_le_contravar; lra. }
  unfold Rdiv in *. lra.
Qed.

Lemma distance_5 (a b : R) :
  (a = 0 /\ b = 5) \/ (a = 5 /\ b = 0) -> sqrt (a ^ 2 + b ^ 2) = 5.
Proof.
  intros [[-> ->]|[-> ->]];
    (replace (_ + _) with (5 ^ 2) by lra); apply sqrt_pow2; lra.
Qed.

Lemma peak_weights :
  weight_update demo_sensor [Particle.mk 5 0 0; Particle.mk 0 5 0]
    demo_landmarks
  = Ok [1 * norm_pdf 5 5 sigma_r; 1 * norm_pdf 5 5 sigma_r].
Proof.
  unfold weight_update. cbn [collect]. unfold particle_weight.
  cbn [Sensor.id demo_sensor length seq product_loop].
  unfold meas_likelihood, index, getitem.
  cbn [Sensor.id Sensor.range Sensor.bearing demo_sensor lookup list_lookup
       rbind].
  unfold demo_landmarks. rewrite lookup_singleton_eq.
  cbn [rbind fst snd Particle.x Particle.y].
  rewrite (distance_5 (5 - 5) (5 - 0)) by (left; lra).
  rewrite (distance_5 (5 - 0) (5 - 5)) by (right; lra).
  reflexivity.
Qed.

Lemma resample_equal_pair (a b : particle) (w : R) (s : RandomState) :
  0.005 <= w ->
  uniform_draws s (position s) = 1 / 2 ->
  resample_particles no_rounding [a; b] NumpyValues [w; w] s
  = Ok ([a; b], skip 1 s).
Proof.
  intros Hw Hdraw. unfold resample_particles, fsum, no_rounding.
  cbn [fold_left map].
  destruct (Rlt_dec (0 + w + w) 0.01); [lra|].
  replace (w / (0 + w + w)) with (1 / 2) by (field; lra).
  unfold bind, lift, uniform_double, random_sample, ret.
  cbn -[Rlt_dec Rgt_dec Rle_dec INR Rdiv Rplus Rmult Rminus Ropp].
  rewrite !Hdraw. run_exact. reflexivity.
Qed.

Example filter_step_returns :
  filter_step no_rounding (Odometry.mk 0 0 0) demo_sensor demo_landmarks
    [Particle.mk 5 0 0; Particle.mk 0 5 0] demo_state
  = Ok ([Particle.mk 5 0 0; Particle.mk 0 5 0], skip 7 demo_state).
Proof.
  unfold filter_step. unfold bind at 1. rewrite sample_motion_still.
  unfold bind at 1. rewrite peak_weights. cbn [lift weights_kind].
  cbn [Sensor.id demo_sensor].
  rewrite resample_equal_pair;
    [reflexivity|exact peak_weight_large|reflexivity].
Qed.

(** X17 on that pass. *)
Lemma filter_step_cardinality_witness :
  (rng_ok demo_state
   /\ filter_step no_rounding (Odometry.mk 0 0 0) demo_sensor demo_landmarks
        [Particle.mk 5 0 0; Particle.mk 0 5 0] demo_state
      = Ok ([Particle.mk 5 0 0; Particle.mk 0 5 0], skip 7 demo_state))
  /\ exists moved_ps,
       sample_motion (Odometry.mk 0 0 0)
         [Particle.mk 5 0 0; Particle.mk 0 5 0] demo_state
       = Ok (moved_ps, skip 6 demo_state)
       /\ length [Particle.mk 5 0 0; Particle.mk 0 5 0] = 2%nat.
Proof.
  split; [split; [exact demo_state_ok|exact filter_step_returns]|].
  destruct (filter_step_cardinality no_rounding (Odometry.mk 0 0 0)
              demo_sensor demo_landmarks
              [Particle.mk 5 0 0; Particle.mk 0 5 0]
              [Particle.mk 5 0 0; Particle.mk 0 5 0]
              demo_state (skip 7 demo_state) demo_state_ok
              filter_step_returns)
    as (moved_ps & Hmove & Hlen & _).
  exists moved_ps. split; [exact Hmove|exact Hlen].
Defined.

Lemma plot_demo_landmarks (ps : list particle) :
  exists drawn, plot ps demo_landmarks = Ok drawn.
Proof.
  unfold plot.
  destruct (landmark_series_cases demo_landmarks
              (seq 0 (size demo_landmarks)) [] [])
    as [(_ & Hrun)|(Hex & _)]; [rewrite Hrun; cbn [rbind]; eauto|].
  exfalso. apply Exists_exists in Hex as (i & Hi & Hnone).
  unfold demo_landmarks in Hi, Hnone. rewrite map_size_singleton in Hi.
  apply elem_of_seq in Hi. assert (i = 0%nat) as -> by lia.
  cbn in Hnone. rewrite lookup_singleton_eq in Hnone. discriminate.
Qed.

Example filter_steps_returns :
  filter_steps no_rounding [(Odometry.mk 0 0 0, demo_sensor)] demo_landmarks
    [Particle.mk 5 0 0; Particle.mk 0 5 0] demo_state
  = Ok ([Particle.mk 5 0 0; Particle.mk 0 5 0], skip 7 demo_state).
Proof.
  cbn [filter_steps]. unfold bind at 1.
  destruct (plot_demo_landmarks [Particle.mk 5 0 0; Particle.mk 0 5 0])
    as [drawn ->].
  cbn [lift]. unfold bind at 1. rewrite filter_step_returns. reflexivity.
Qed.

(** X18 on that run of one pass. *)
Lemma filter_steps_cardinality_witness :
  filter_steps no_rounding [(Odometry.mk 0 0 0, demo_sensor)] demo_landmarks
    [Particle.mk 5 0 0; Particle.mk 0 5 0] demo_state
  = Ok ([Particle.mk 5 0 0; Particle.mk 0 5 0], skip 7 demo_state)
  /\ length [Particle.mk 5 0 0; Particle.mk 0 5 0] = 2%nat.
Proof.
  split; [exact filter_steps_returns|].
  exact (filter_steps_cardinality no_rounding
           [(Odometry.mk 0 0 0, demo_sensor)] demo_landmarks
           [Particle.mk 5 0 0; Particle.mk 0 5 0]
           [Particle.mk 5 0 0; Particle.mk 0 5 0]
           demo_state (skip 7 demo_state) filter_steps_returns).
Defined.

(** *** The scan under a rounding

    The arithmetic of doubles is not in the library; the coarse rounding
    [round_quarter] shows the mechanism on numbers one can follow by hand.
    Four weights 3, 3, 3, 1 over four particles: the normalized weights
    0.3, 0.3, 0.3, 0.1 round to 1/4, 1/4, 1/4, 0, so the cumulative weight
    ends at 3/4; the offset 1/8 rounds to 1/4 and the last threshold is 1.
    The scan runs off the weights: [weights[4]] raises [IndexError], on as
    many weights as particles. *)

Lemma round_quarter_eval (x : R) (z : Z) :
  4 * x - 1 / 2 < IZR z -> IZR z <= 4 * x + 1 / 2 ->
  round_quarter x = IZR z / 4.
Proof.
  intros Hlo Hhi. unfold round_quarter.
  rewrite <- (tech_up (4 * x - 1 / 2) z); [reflexivity|exact Hlo|lra].
Qed.

Lemma up_mono (x y : R) : x <= y -> (up x <= up y)%Z.
Proof.
  intros Hxy. destruct (archimed x) as [Hx1 Hx2].
  destruct (archimed y) as [Hy1 Hy2].
  destruct (Z_le_gt_dec (up x) (up y)) as [Hle|Hgt]; [exact Hle|].
  assert (Hz : (up y + 1 <= up x)%Z) by lia.
  apply IZR_le in Hz. rewrite plus_IZR in Hz. lra.
Qed.

Lemma round_quarter_ok : rounding_ok round_quarter.
Proof.
  repeat split.
  - intros x y Hxy. unfold round_quarter.
    assert (Hz : (up (4 * x - 1 / 2) <= up (4 * y - 1 / 2))%Z)
      by (apply up_mono; lra).
    apply IZR_le in Hz. lra.
  - intros x. unfold round_quarter at 1.
    set (z := up (4 * x - 1 / 2)).
    fold z. unfold round_quarter. fold z.
    rewrite <- (tech_up (4 * (IZR z / 4) - 1 / 2) z); [reflexivity|lra|lra].
  - rewrite (round_quarter_eval 0 0); lra.
  - rewrite (round_quarter_eval 1 4); lra.
Qed.

Ltac eval_quarter :=
  repeat match goal with
  | |- context [round_quarter ?x] =>
      first [ rewrite (round_quarter_eval x 0) by lra
            | rewrite (round_quarter_eval x 1) by lra
            | rewrite (round_quarter_eval x 2) by lra
            | rewrite (round_quarter_eval x 3) by lra
            | rewrite (round_quarter_eval x 4) by lra
            | rewrite (round_quarter_eval x 5) by lra
            | rewrite (round_quarter_eval x 12) by lra
            | rewrite (round_quarter_eval x 24) by lra
            | rewrite (round_quarter_eval x 36) by lra
            | rewrite (round_quarter_eval x 40) by lra ]
  end.

Ltac run_quarter :=
  repeat (progress
            (cbn -[Rlt_dec Rgt_dec Rle_dec INR Rdiv Rplus Rmult Rminus Ropp
                   round_quarter up];
             simpl INR; eval_quarter; decide_reals)).

Example resample_particles_rounding_index_error :
  length [3; 3; 3; 1] = length [p_a; p_b; p_a; p_b]
  /\ 0.01 <= fsum round_quarter [3; 3; 3; 1]
  /\ resample_particles round_quarter [p_a; p_b; p_a; p_b] NumpyValues
       [3; 3; 3; 1] demo_state
     = Raise IndexError.
Proof.
  split; [reflexivity|].
  split; [unfold fsum; cbn [fold_left]; eval_quarter; lra|].
  unfold resample_particles, fsum. run_quarter. reflexivity.
Qed.
